(** * Visitor and key record store (server.js): serial numbers, validation,
      renumbering on delete.

    The development embeds the Express handlers of the main server (the
    one with [fs = require('fs').promises], serving [/api/visitors] and
    [/api/keys], with its start-up) and the validator, the next-serial
    function and the create route of the multipart variant of the server,
    and proves the properties of the record store against them.

    Conventions.
    - A record is a JS object parsed from JSON: a finite map from property
      names to JSON values.  Reading a missing property gives [undefined],
      which is [None] here; assigning [undefined] to a property and then
      serialising drops it, so that assignment is a [delete].
    - Strings are sequences of code units below 256.
    - Numbers are integers below 10^21 in magnitude, which JavaScript
      prints in full.
    - The handlers run against a [world]: the two collection files, the
      photo directory and the error log.  Faults of [fs.writeFile] and the
      server clock come from an [env].  A rejected write leaves its
      target as it was, as a rejection before the file is opened does
      (permissions, a read-only file system, a missing directory).  The
      empty or partial file that a write leaves behind when it fails
      after the truncating open is not modelled. *)

From Stdlib Require Import String Ascii List ZArith Lia.
From Stdlib Require Import Decimal DecimalString DecimalNat DecimalFacts.
From stdpp Require Import gmap strings list fin_maps.

Local Open Scope list_scope.

(** ** JavaScript values and string primitives *)

Module Js.

(** JSON values as [express.json()] hands them to the handlers.  Numbers
    are the integral ones below 10^21 in magnitude; [VObj] stands for a
    nested plain object, whose contents no handler inspects. *)
Inductive value :=
| VNull
| VBool (b : bool)
| VNum (n : Z)
| VStr (s : string)
| VObj.

#[global] Instance value_eq_dec : EqDecision value.
Proof. solve_decision. Defined.

(** [!!v] for a property read: [undefined], [null], [false], [0] and the
    empty string are falsy. *)
Definition truthy (v : option value) : bool :=
  match v with
  | None | Some VNull => false
  | Some (VBool b) => b
  | Some (VNum n) => negb (n =? 0)%Z
  | Some (VStr s) => negb (String.eqb s "")
  | Some VObj => true
  end.

(** [Number.prototype.toString()] on a non-negative integer. *)
Definition toString (n : nat) : string :=
  NilEmpty.string_of_uint (Nat.to_uint n).

(** The string conversion of a property read, as a template literal
    [`${v}`] and [RegExp.prototype.test] apply it.  An integer is printed
    in full, as JavaScript does below 10^21 in magnitude (from there on it
    switches to the exponent form, which is outside the model). *)
Definition interpolate (v : option value) : string :=
  match v with
  | None => "undefined"
  | Some VNull => "null"
  | Some (VBool true) => "true"
  | Some (VBool false) => "false"
  | Some (VNum n) => NilEmpty.string_of_int (Z.to_int n)
  | Some (VStr s) => s
  | Some VObj => "[object Object]"
  end.

Fixpoint repeat_char (n : nat) (c : ascii) : string :=
  match n with
  | O => EmptyString
  | S n' => String c (repeat_char n' c)
  end.

(** [s.padStart(targetLength, c)] for a one-character pad string. *)
Definition padStart (targetLength : nat) (c : ascii) (s : string) : string :=
  repeat_char (targetLength - String.length s) c +:+ s.

(** White space removed by [String.prototype.trim] among the code units
    below 256: TAB, LF, VT, FF, CR, SP and NBSP.  The white space that
    [trim] removes above that range (U+1680, U+2000 to U+200A, U+2028,
    U+2029, U+202F, U+205F, U+3000, U+FEFF) cannot occur in the strings of
    this development. *)
Definition is_white_space (c : ascii) : bool :=
  let n := nat_of_ascii c in
  (((9 <=? n) && (n <=? 13)) || (n =? 32) || (n =? 160))%nat.

Fixpoint trimStart (s : string) : string :=
  match s with
  | EmptyString => EmptyString
  | String c s' => if is_white_space c then trimStart s' else s
  end.

Definition trimEnd (s : string) : string :=
  String.rev (trimStart (String.rev s)).

Definition trim (s : string) : string := trimEnd (trimStart s).

Definition is_digit (c : ascii) : bool :=
  let n := nat_of_ascii c in ((48 <=? n) && (n <=? 57))%nat.

(** [\w] without the unicode flag: [A-Za-z0-9_]. *)
Definition is_word_char (c : ascii) : bool :=
  let n := nat_of_ascii c in
  (((48 <=? n) && (n <=? 57)) || ((65 <=? n) && (n <=? 90))
   || ((97 <=? n) && (n <=? 122)) || (n =? 95))%nat.

(** *** Anchored patterns made of literals and [\d]

    [/^784-\d{4}-\d{7}-\d$/] has no alternation and no repetition of
    unknown length: it is a sequence of single-character atoms that must
    cover the whole subject (without the [m] flag [$] matches at the very
    end only). *)
Inductive atom :=
| Lit (c : ascii)
| Digit.

Definition atom_matches (a : atom) (c : ascii) : bool :=
  match a with
  | Lit c' => Ascii.eqb c' c
  | Digit => is_digit c
  end.

(** [/^p$/.test(s)] *)
Fixpoint test (p : list atom) (s : string) : bool :=
  match p, s with
  | [], EmptyString => true
  | a :: p', String c s' => atom_matches a c && test p' s'
  | _, _ => false
  end.

Definition lits (s : string) : list atom := Lit <$> list_ascii_of_string s.

(** *** [s.replace(/^data:image\/\w+;base64,/, '')] *)

Fixpoint strip_literal (lit s : string) : option string :=
  match lit, s with
  | EmptyString, _ => Some s
  | String a lit', String b s' =>
      if Ascii.eqb a b then strip_literal lit' s' else None
  | String _ _, EmptyString => None
  end.

(** The longest run of word characters at the head of [s] and what follows.
    [\w+] is greedy, and giving characters back cannot help: the character
    after a shorter run is a word character, never the [;] that must follow. *)
Fixpoint span_word (s : string) : string * string :=
  match s with
  | EmptyString => (EmptyString, EmptyString)
  | String c s' =>
      if is_word_char c
      then let '(w, rest) := span_word s' in (String c w, rest)
      else (EmptyString, s)
  end.

Definition strip_data_uri (s : string) : string :=
  match strip_literal "data:image/" s with
  | None => s
  | Some s1 =>
      match span_word s1 with
      | (EmptyString, _) => s
      | (_, s2) =>
          match strip_literal ";base64," s2 with
          | Some payload => payload
          | None => s
          end
      end
  end.

End Js.

Export Js.


(** A record: a JS object with JSON-valued properties. *)
Abbreviation record := (gmap string value).

(** [obj[key] = v] where [v] may be [undefined]. *)
Definition assign (key : string) (v : option value) (r : record) : record :=
  partial_alter (λ _, v) key r.

(** ** Exceptions, the world and the handler monad *)

Module Io.

(** What a handler can catch; [message] is the [error.message] it reads. *)
Inductive exn :=
| Error (msg : string)
| TypeError (msg : string)
| SystemError (msg : string).

Definition message (err : exn) : string :=
  match err with
  | Error msg | TypeError msg | SystemError msg => msg
  end.

(** [a || b] on strings. *)
Definition or_else (a b : string) : string :=
  if String.eqb a "" then b else a.

Inductive outcome (A : Type) :=
| Return (a : A)
| Throw (err : exn).
Arguments Return {A} a.
Arguments Throw {A} err.

(** [data/visitors.json] and [data/keys.json] hold a collection when they
    can be read and parsed, the photo directory maps paths to the base64
    text that was decoded into the file, and [log] collects the calls of
    [logger.error], oldest first. *)
Record world := World {
  visitors_file : option (list record);
  keys_file : option (list record);
  photos : gmap string string;
  log : list (string * exn)
}.

(** The collaborators of a request: the date [new Date().toISOString()
    .split('T')[0]] and, for each path, whether [fs.writeFile] rejects and
    with which message.  A rejected write leaves the file as it was
    (absent, if it was absent), as a rejection before the open does; the
    empty or partial file left by a write that fails after the truncating
    open is not modelled. *)
Record env := Env {
  today : string;
  writeFile_fault : string → option string
}.

Definition io (A : Type) : Type := world → outcome A * world.

#[global] Instance io_ret : MRet io := λ A a w, (Return a, w).

#[global] Instance io_bind : MBind io := λ A B f m w,
  match m w with
  | (Return a, w') => f a w'
  | (Throw err, w') => (Throw err, w')
  end.

Definition throw {A} (err : exn) : io A := λ w, (Throw err, w).

Definition lift {A} (o : outcome A) : io A := λ w, (o, w).

(** [try { body } catch (error) { handler(error) }] *)
Definition try_catch {A} (body : io A) (handler : exn → io A) : io A := λ w,
  match body w with
  | (Return a, w') => (Return a, w')
  | (Throw err, w') => handler err w'
  end.

Definition add_log (entries : list (string * exn)) (w : world) : world :=
  World (visitors_file w) (keys_file w) (photos w) (log w ++ entries).

(** [logger.error(text, error)] *)
Definition logger_error (text : string) (err : exn) : io unit := λ w,
  (Return (), add_log [(text, err)] w).

(** A route handler: the body of its outer [try], and what its [catch]
    logs and answers. *)
Definition handler {R} (body : io R) (text : string) (answer : exn → R)
  : world → R * world := λ w,
  match body w with
  | (Return r, w') => (r, w')
  | (Throw err, w') =>
      (answer err, snd (logger_error text err w'))
  end.

End Io.

Export Io.

(** ** The main server *)

Module Server.

Definition DATA_DIR : string := "data".
Definition path_join (dir name : string) : string := dir +:+ "/" +:+ name.
Definition VISITORS_FILE : string := path_join DATA_DIR "visitors.json".
Definition KEYS_FILE : string := path_join DATA_DIR "keys.json".
Definition PHOTOS_DIR : string := path_join DATA_DIR "photos".

(** The visitor routes and the key routes are the same code up to the
    constants below. *)
Inductive kind := Visitor | Key.

Definition requiredFields (k : kind) : list string :=
  match k with
  | Visitor => ["serialNumber"; "idNumber"; "name"; "company"; "phone";
                "timeIn"; "date"; "purpose"]
  | Key => ["serialNumber"; "idNumber"; "name"; "keyTagName"; "timeTaken";
            "date"; "securityRemarks"]
  end.

(** The parameter name of the validator, as the engine prints it. *)
Definition param (k : kind) : string :=
  match k with Visitor => "visitor" | Key => "key" end.

Definition idFormatError (k : kind) : string :=
  match k with
  | Visitor => "Invalid ID Number format"
  | Key => "Invalid Emirates ID format. Expected format: 784-XXXX-XXXXXXX-X"
  end.

(** [/^784-\d{4}-\d{7}-\d$/] *)
Definition idPattern : list atom :=
  lits "784-" ++ replicate 4 Digit ++ lits "-" ++ replicate 7 Digit
  ++ lits "-" ++ [Digit].

(** [`${serial}_front.jpg`] and [`key_${serial}_front.jpg`]. *)
Definition photoName (k : kind) (serial side : string) : string :=
  match k with
  | Visitor => serial +:+ "_" +:+ side +:+ ".jpg"
  | Key => "key_" +:+ serial +:+ "_" +:+ side +:+ ".jpg"
  end.

Definition photoPath (k : kind) (serial side : string) : string :=
  path_join PHOTOS_DIR (photoName k serial side).

Definition photoUrl (k : kind) (serial side : string) : string :=
  "/photos/" +:+ photoName k serial side.

Definition collection_path (k : kind) : string :=
  match k with Visitor => VISITORS_FILE | Key => KEYS_FILE end.

Definition collection_file (k : kind) (w : world) : option (list record) :=
  match k with Visitor => visitors_file w | Key => keys_file w end.

Definition set_collection_file (k : kind) (rs : list record) (w : world) : world :=
  match k with
  | Visitor => World (Some rs) (keys_file w) (photos w) (log w)
  | Key => World (visitors_file w) (Some rs) (photos w) (log w)
  end.

Definition set_photos (ph : gmap string string) (w : world) : world :=
  World (visitors_file w) (keys_file w) ph (log w).

(** *** validateVisitorData, validateKeyData *)

(** The loop over [requiredFields]: a falsy property or a string that is
    empty after [trim()] is pushed; on any other truthy value the call of
    [trim] is a [TypeError]. *)
Fixpoint collectMissing (k : kind) (fields : list string) (r : record)
    (missingFields : list string) : outcome (list string) :=
  match fields with
  | [] => Return missingFields
  | field :: fields' =>
      if negb (truthy (r !! field))
      then collectMissing k fields' r (missingFields ++ [field])
      else
        match r !! field with
        | Some (VStr s) =>
            if String.eqb (trim s) ""
            then collectMissing k fields' r (missingFields ++ [field])
            else collectMissing k fields' r missingFields
        | _ => Throw (TypeError (param k +:+ "[field].trim is not a function"))
        end
  end.

(** [idPattern.test(r.idNumber)]: the argument is converted to a string. *)
Definition idNumber_conforms (r : record) : bool :=
  test idPattern (interpolate (r !! "idNumber")).

Definition validate (k : kind) (r : record) : outcome bool :=
  match collectMissing k (requiredFields k) r [] with
  | Throw err => Throw err
  | Return missingFields =>
      if (0 <? length missingFields)%nat
      then Throw (Error ("Missing required fields: "
                         +:+ String.concat ", " missingFields))
      else if negb (idNumber_conforms r)
      then Throw (Error (idFormatError k))
      else if negb (truthy (r !! "frontPhoto")) || negb (truthy (r !! "backPhoto"))
      then Throw (Error "Both front and back ID photos are required")
      else Return true
  end.

Definition validateVisitorData : record → outcome bool := validate Visitor.
Definition validateKeyData : record → outcome bool := validate Key.

(** *** loadVisitors, saveVisitors, loadKeys, saveKeys *)

Definition kindNoun (k : kind) : string :=
  match k with Visitor => "visitors" | Key => "keys" end.

(** A file that cannot be read or parsed is logged and read as [[]]. *)
Definition load (k : kind) : io (list record) := λ w,
  match collection_file k w with
  | Some rs => (Return rs, w)
  | None =>
      let err := SystemError ("cannot read " +:+ collection_path k) in
      (Return [], snd (logger_error ("Error loading " +:+ kindNoun k +:+ ":") err w))
  end.

(** [v.serialNumber === serialNumber] against the string of the route. *)
Definition has_serial (serialNumber : string) (r : record) : Prop :=
  r !! "serialNumber" = Some (VStr serialNumber).

#[global] Instance has_serial_dec serialNumber r : Decision (has_serial serialNumber r).
Proof. unfold has_serial. apply _. Defined.

(** The JSON answers of the routes: 201, 400, 404, 200 with the record,
    200 of a delete, 200 of the stats, 500. *)
Inductive response :=
| Created (msg : string) (data : record)
| BadRequest (error : string)
| NotFound (error : string)
| Updated (data : record)
| Adjusted (msg : string) (remainingCount : nat)
| StatsOf (totalVisitors activeKeys : nat)
| Failed (error : string) (details : option string).

Section WithEnv.

Context (e : env).

(** [fs.writeFile(path, JSON.stringify(rs, null, 2))], logged and rethrown
    by the [save] wrapper when it rejects.  On a rejection the collection
    file keeps its content, as when the file could not be opened (see
    [env]). *)
Definition save (k : kind) (rs : list record) : io unit :=
  try_catch
    (λ w, match writeFile_fault e (collection_path k) with
          | Some msg => (Throw (SystemError msg), w)
          | None => (Return (), set_collection_file k rs w)
          end)
    (λ err, _ ← logger_error ("Error saving " +:+ kindNoun k +:+ ":") err;
            throw err).

Definition loadVisitors : io (list record) := load Visitor.
Definition saveVisitors : list record → io unit := save Visitor.
Definition loadKeys : io (list record) := load Key.
Definition saveKeys : list record → io unit := save Key.

(** *** The members of [fs = require('fs').promises] that the routes call *)

(** [fs.writeFile(path, data, 'base64')].  On a rejection no file is
    created and an existing one keeps its content, as when the file could
    not be opened (see [env]). *)
Definition fs_writeFile (path data : string) : io unit := λ w,
  match writeFile_fault e path with
  | Some msg => (Throw (SystemError msg), w)
  | None => (Return (), set_photos (<[path := data]> (photos w)) w)
  end.

(** [fs.unlink(path)] *)
Definition fs_unlink (path : string) : io unit := λ w,
  match photos w !! path with
  | Some _ => (Return (), set_photos (delete path (photos w)) w)
  | None =>
      (Throw (SystemError ("ENOENT: no such file or directory, unlink '"
                           +:+ path +:+ "'")), w)
  end.

(** [fs.rename(oldPath, newPath)] *)
Definition fs_rename (oldPath newPath : string) : io unit := λ w,
  match photos w !! oldPath with
  | Some data =>
      (Return (), set_photos (<[newPath := data]> (delete oldPath (photos w))) w)
  | None =>
      (Throw (SystemError ("ENOENT: no such file or directory, rename '"
                           +:+ oldPath +:+ "' -> '" +:+ newPath +:+ "'")), w)
  end.

(** [fs.existsSync(path)].  The promises API has no [existsSync]: the
    member is [undefined] and calling it throws. *)
Definition fs_existsSync (path : string) : io bool :=
  throw (TypeError "fs.existsSync is not a function").

(** *** POST /api/visitors, POST /api/keys *)

(** [photo.replace(/^data:image\/\w+;base64,/, '')] on a truthy property. *)
Definition photoData (k : kind) (property : string) (r : record) : io string :=
  match r !! property with
  | Some (VStr s) => mret (strip_data_uri s)
  | _ => throw (TypeError (param k +:+ "." +:+ property
                           +:+ ".replace is not a function"))
  end.

(** The visitor route always stamps the date; the key route only when the
    property is falsy. *)
Definition stampDate (k : kind) (r : record) : record :=
  match k with
  | Visitor => <["date" := VStr (today e)]> r
  | Key => if negb (truthy (r !! "date"))
           then <["date" := VStr (today e)]> r else r
  end.

Definition createdMessage (k : kind) : string :=
  match k with
  | Visitor => "Visitor created successfully"
  | Key => "Key entry created successfully"
  end.

Definition createFailure (k : kind) : string :=
  match k with
  | Visitor => "Failed to create visitor"
  | Key => "Failed to create key entry"
  end.

Definition createLogText (k : kind) : string :=
  match k with
  | Visitor => "Error creating visitor:"
  | Key => "Error creating key entry:"
  end.

Definition createBody (k : kind) (body : record) : io response :=
  _ ← lift (validate k body);
  rs ← load k;
  let nextSerialNumber := padStart 4 "0" (toString (length rs + 1)) in
  let r1 := <["serialNumber" := VStr nextSerialNumber]> body in
  let r2 := stampDate k r1 in
  let frontPhotoPath := photoPath k nextSerialNumber "front" in
  let backPhotoPath := photoPath k nextSerialNumber "back" in
  frontPhotoData ← photoData k "frontPhoto" r2;
  backPhotoData ← photoData k "backPhoto" r2;
  _ ← fs_writeFile frontPhotoPath frontPhotoData;
  _ ← fs_writeFile backPhotoPath backPhotoData;
  let r3 := <["frontPhoto" := VStr (photoUrl k nextSerialNumber "front")]> r2 in
  let r4 := <["backPhoto" := VStr (photoUrl k nextSerialNumber "back")]> r3 in
  _ ← save k (rs ++ [r4]);
  mret (Created (createdMessage k) r4).

Definition create (k : kind) (body : record) : world → response * world :=
  handler (createBody k body) (createLogText k)
    (λ err, BadRequest (or_else (message err) (createFailure k))).

(** *** POST /api/visitors/:serialNumber/timeout, POST /api/keys/:serialNumber/return *)

Definition timeField (k : kind) : string :=
  match k with Visitor => "timeOut" | Key => "timeReturned" end.

Definition notFoundError (k : kind) : string :=
  match k with Visitor => "Visitor not found" | Key => "Key not found" end.

Definition setTimeBody (k : kind) (serialNumber : string) (body : record)
  : io response :=
  let time := body !! timeField k in
  rs ← load k;
  match list_find (has_serial serialNumber) rs with
  | None => mret (NotFound (notFoundError k))
  | Some (i, r) =>
      let r' := assign (timeField k) time r in
      _ ← save k (<[i := r']> rs);
      mret (Updated r')
  end.

Definition setTime (k : kind) (serialNumber : string) (body : record)
  : world → response * world :=
  match k with
  | Visitor =>
      handler (setTimeBody k serialNumber body) "Error recording timeout:"
        (λ _, Failed "Failed to record timeout" None)
  | Key =>
      handler (setTimeBody k serialNumber body) "Error recording key return:"
        (λ _, Failed "Failed to record key return" None)
  end.

Definition timeout : string → record → world → response * world := setTime Visitor.
Definition keyReturn : string → record → world → response * world := setTime Key.

(** *** DELETE /api/visitors/:serialNumber/adjust, DELETE /api/keys/:serialNumber *)

Definition unlinkIfExists (path : string) : io unit :=
  found ← fs_existsSync path;
  if (found : bool) then fs_unlink path else mret ().

Definition renameIfExists (oldPath newPath : string) : io unit :=
  found ← fs_existsSync oldPath;
  if (found : bool) then fs_rename oldPath newPath else mret ().

Definition deletePhotosLogText (k : kind) : string :=
  match k with
  | Visitor => "Error deleting photos:"
  | Key => "Error deleting key photos:"
  end.

(** The [try] around the two unlinks of the deleted record's photos. *)
Definition deletePhotos (k : kind) (serialNumber : string) : io unit :=
  try_catch
    (_ ← unlinkIfExists (photoPath k serialNumber "front");
     unlinkIfExists (photoPath k serialNumber "back"))
    (λ err, logger_error (deletePhotosLogText k) err).

Definition renameLogText (k : kind) (oldSerial : option value) : string :=
  "Error renaming photos for " +:+ param k +:+ " " +:+ interpolate oldSerial +:+ ":".

(** The [try] around the two renames inside the renumbering loop. *)
Definition renamePhotos (k : kind) (oldSerial : option value) (newSerial : string)
  : io unit :=
  let old := interpolate oldSerial in
  try_catch
    (_ ← renameIfExists (photoPath k old "front") (photoPath k newSerial "front");
     renameIfExists (photoPath k old "back") (photoPath k newSerial "back"))
    (λ err, logger_error (renameLogText k oldSerial) err).

(** The loop [for (let i = 0; i < rs.length; i++)] from index [i] on, over
    the records that are still to be visited. *)
Fixpoint renumberFrom (k : kind) (i : nat) (rs : list record) : io (list record) :=
  match rs with
  | [] => mret []
  | r :: rs' =>
      let newSerial := padStart 4 "0" (toString (i + 1)) in
      let oldSerial := r !! "serialNumber" in
      let r' := <["backPhoto" := VStr (photoUrl k newSerial "back")]>
                  (<["frontPhoto" := VStr (photoUrl k newSerial "front")]>
                     (<["serialNumber" := VStr newSerial]> r)) in
      _ ← renamePhotos k oldSerial newSerial;
      rest ← renumberFrom k (S i) rs';
      mret (r' :: rest)
  end.

Definition adjustedMessage (k : kind) : string :=
  match k with
  | Visitor => "Visitor deleted and serial numbers adjusted"
  | Key => "Key record deleted and serial numbers adjusted"
  end.

Definition deleteAdjustBody (k : kind) (serialNumber : string) : io response :=
  rs ← load k;
  match list_find (has_serial serialNumber) rs with
  | None => mret (NotFound (notFoundError k))
  | Some (index, _) =>
      let spliced := delete index rs in
      _ ← deletePhotos k serialNumber;
      renumbered ← renumberFrom k 0 spliced;
      _ ← save k renumbered;
      mret (Adjusted (adjustedMessage k) (length renumbered))
  end.

Definition deleteAdjust (k : kind) (serialNumber : string)
  : world → response * world :=
  match k with
  | Visitor =>
      handler (deleteAdjustBody k serialNumber)
        "Error in delete and adjust operation:"
        (λ err, Failed "Failed to delete visitor and adjust serial numbers"
                  (Some (message err)))
  | Key =>
      handler (deleteAdjustBody k serialNumber) "Error deleting key:"
        (λ _, Failed "Failed to delete key" None)
  end.

(** *** GET /api/stats *)

Definition statsBody : io response :=
  visitors ← loadVisitors;
  keys ← loadKeys;
  let activeKeys :=
    length (List.filter (λ k : record, negb (truthy (k !! "timeReturned"))) keys) in
  mret (StatsOf (length visitors) activeKeys).

Definition stats : world → response * world :=
  handler statsBody "Error fetching stats:" (λ _, Failed "Failed to fetch stats" None).

End WithEnv.

End Server.

Export Server.

(** ** The multipart variant of the server *)

Module Variant.

Definition requiredFields : list string :=
  ["name"; "purpose"; "personToMeet"; "idType"].

(** The loop throws at the first falsy property. *)
Fixpoint checkFields (fields : list string) (data : record) : outcome unit :=
  match fields with
  | [] => Return ()
  | field :: fields' =>
      if negb (truthy (data !! field))
      then Throw (Error ("Missing required field: " +:+ field))
      else checkFields fields' data
  end.

Definition validateVisitorData (data : record) : outcome unit :=
  checkFields requiredFields data.

End Variant.

(** ** Vocabulary of the statements *)

(** The serial number of position [n] (counted from 1). *)
Definition serialOf (n : nat) : string := padStart 4 "0" (toString n).

(** The collection as a route reads it: an unreadable file reads as [[]]. *)
Definition stored (k : kind) (w : world) : list record :=
  default [] (collection_file k w).

Definition field (name : string) (rs : list record) : list (option value) :=
  (λ r : record, r !! name) <$> rs.

(** Serial numbers are [0001..N] in list order. *)
Definition dense (rs : list record) : Prop :=
  field "serialNumber" rs = (λ n, Some (VStr (serialOf n))) <$> seq 1 (length rs).

(** What reading the collection adds to the log. *)
Definition loadLog (k : kind) (w : world) : list (string * exn) :=
  match collection_file k w with
  | Some _ => []
  | None => [("Error loading " +:+ kindNoun k +:+ ":",
              SystemError ("cannot read " +:+ collection_path k))]
  end.

(** What the renumbering loop leaves in memory. *)
Definition renumberRecord (k : kind) (i : nat) (r : record) : record :=
  <["backPhoto" := VStr (photoUrl k (serialOf (i + 1)) "back")]>
    (<["frontPhoto" := VStr (photoUrl k (serialOf (i + 1)) "front")]>
       (<["serialNumber" := VStr (serialOf (i + 1))]> r)).

Fixpoint renumbered (k : kind) (i : nat) (rs : list record) : list record :=
  match rs with
  | [] => []
  | r :: rs' => renumberRecord k i r :: renumbered k (S i) rs'
  end.

Fixpoint renameLog (k : kind) (rs : list record) : list (string * exn) :=
  match rs with
  | [] => []
  | r :: rs' =>
      (renameLogText k (r !! "serialNumber"),
       TypeError "fs.existsSync is not a function") :: renameLog k rs'
  end.

(** A required property counts as missing when it is falsy or a string
    that is empty after trimming. *)
Definition isBlank (v : option value) : bool :=
  negb (truthy v)
  || match v with Some (VStr s) => String.eqb (trim s) "" | _ => false end.

(** A property on which the validator can call [trim] or never does. *)
Definition isText (v : option value) : bool :=
  negb (truthy v) || match v with Some (VStr _) => true | _ => false end.

Definition missing (k : kind) (r : record) : list string :=
  List.filter (λ f, isBlank (r !! f)) (Server.requiredFields k).

(** A required property that is there: a string with something left after
    trimming. *)
Definition present (v : option value) : Prop :=
  ∃ s, v = Some (VStr s) ∧ trim s ≠ "".

(** A photo payload that is there: a non-empty string. *)
Definition payload (v : option value) : Prop :=
  ∃ s, v = Some (VStr s) ∧ s ≠ "".

(** The record that a successful create stores on a collection of [n]
    records. *)
Definition createdRecord (e : env) (k : kind) (n : nat) (body : record) : record :=
  <["backPhoto" := VStr (photoUrl k (serialOf (n + 1)) "back")]>
    (<["frontPhoto" := VStr (photoUrl k (serialOf (n + 1)) "front")]>
       (stampDate e k (<["serialNumber" := VStr (serialOf (n + 1))]> body))).

(** The steps of a create after validation and loading, spelled out as
    one case analysis: the two payload reads, the two photo writes, the
    collection write. *)
Definition createAfterLoad (e : env) (k : kind) (body : record)
    (rs : list record) (w0 : world) : outcome response * world :=
  let serial := serialOf (length rs + 1) in
  match body !! "frontPhoto", body !! "backPhoto" with
  | Some (VStr front), Some (VStr back) =>
      match writeFile_fault e (photoPath k serial "front") with
      | Some msg => (Throw (SystemError msg), w0)
      | None =>
          let w1 := set_photos (<[photoPath k serial "front" := strip_data_uri front]>
                                  (photos w0)) w0 in
          match writeFile_fault e (photoPath k serial "back") with
          | Some msg => (Throw (SystemError msg), w1)
          | None =>
              let w2 := set_photos (<[photoPath k serial "back" := strip_data_uri back]>
                                      (photos w1)) w1 in
              match writeFile_fault e (collection_path k) with
              | Some msg =>
                  (Throw (SystemError msg),
                   add_log [("Error saving " +:+ kindNoun k +:+ ":",
                             SystemError msg)] w2)
              | None =>
                  (Return (Created (createdMessage k)
                             (createdRecord e k (length rs) body)),
                   set_collection_file k
                     (rs ++ [createdRecord e k (length rs) body]) w2)
              end
          end
      end
  | Some (VStr _), _ =>
      (Throw (TypeError (param k +:+ ".backPhoto.replace is not a function")), w0)
  | _, _ =>
      (Throw (TypeError (param k +:+ ".frontPhoto.replace is not a function")), w0)
  end.

(** A run of exactly [n] decimal digits. *)
Definition digits (n : nat) (s : string) : Prop :=
  String.length s = n ∧ forallb is_digit (list_ascii_of_string s) = true.

(** [needle] occurs in [text]. *)
Definition mentions (needle text : string) : bool :=
  match String.index 0 needle text with Some _ => true | None => false end.

(** A key record without a return time. *)
Definition lacksTimeReturned (k : record) : bool :=
  negb (truthy (k !! "timeReturned")).

Fixpoint countActive (keys : list record) : nat :=
  match keys with
  | [] => 0
  | k :: keys' => (if lacksTimeReturned k then 1 else 0) + countActive keys'
  end.

(** Parsing a serial number back: leading zeros do not count. *)
Definition parseSerial (s : string) : option nat :=
  Nat.of_uint <$> NilEmpty.uint_of_string s.

(** ** Sample requests *)

Module Sample.

Definition quietEnv : env := Env "2024-01-15" (λ _, None).

(** The disk rejects the write of the first visitor's back photo. *)
Definition backPhotoFaultEnv : env :=
  Env "2024-01-15"
    (λ path, if String.eqb path (photoPath Visitor "0001" "back")
             then Some "ENOSPC: no space left on device, write" else None).

Definition emptyWorld : world := World (Some []) (Some []) ∅ [].

Definition visitorForm (name : string) : record :=
  list_to_map
    [("serialNumber", VStr "9999"); ("idNumber", VStr "784-1234-1234567-1");
     ("name", VStr name); ("company", VStr "Acme"); ("phone", VStr "0501234567");
     ("timeIn", VStr "09:00"); ("date", VStr "1999-12-31");
     ("purpose", VStr "Meeting");
     ("frontPhoto", VStr ("data:image/jpeg;base64,front-of-" +:+ name));
     ("backPhoto", VStr ("data:image/jpeg;base64,back-of-" +:+ name))].

Definition keyForm (name : string) : record :=
  list_to_map
    [("serialNumber", VStr "9999"); ("idNumber", VStr "784-1234-1234567-1");
     ("name", VStr name); ("keyTagName", VStr "Server room");
     ("timeTaken", VStr "09:00"); ("date", VStr "1999-12-31");
     ("securityRemarks", VStr "none");
     ("frontPhoto", VStr ("data:image/jpeg;base64,front-of-" +:+ name));
     ("backPhoto", VStr ("data:image/jpeg;base64,back-of-" +:+ name))].

(** Three visitors created one after the other on an empty store. *)
Definition threeVisitors : world :=
  snd (create quietEnv Visitor (visitorForm "Carol")
    (snd (create quietEnv Visitor (visitorForm "Bob")
      (snd (create quietEnv Visitor (visitorForm "Alice") emptyWorld))))).

(** Two keys, the first of them returned. *)
Definition twoKeys : world :=
  snd (keyReturn quietEnv "0001" {["timeReturned" := VStr "17:30"]}
    (snd (create quietEnv Key (keyForm "Bob")
      (snd (create quietEnv Key (keyForm "Alice") emptyWorld))))).

(** A request to the multipart variant without name and purpose. *)
Definition variantForm : record :=
  list_to_map [("personToMeet", VStr "Dana"); ("idType", VStr "passport")].

(** A visitor request without a company and with a number for a name. *)
Definition numberNameForm : record :=
  <["name" := VNum 5]> (delete "company" (visitorForm "Alice")).

End Sample.

(** ** The remaining routes of the main server *)

Module Routes.

(** The answers of the routes below: one of the answers above, the
    [{ message }] of the plain delete, or a collection as a JSON list. *)
Inductive reply :=
| Answer (r : response)
| Message (msg : string)
| Listing (rs : list record).

(** *** GET /api/visitors, GET /api/keys *)

Definition listBody (k : kind) : io reply :=
  rs ← load k;
  mret (Listing rs).

Definition listAll (k : kind) : world → reply * world :=
  handler (listBody k) ("Error fetching " +:+ kindNoun k +:+ ":")
    (λ _, Answer (Failed ("Failed to fetch " +:+ kindNoun k) None)).

(** *** DELETE /api/visitors/:serialNumber

    The delete without adjustment.  It calls [fs.unlink] directly, so its
    photo deletion does run; the first unlink that rejects ends the inner
    [try].  As everywhere in this model, an unlink rejects exactly when
    the file is not there. *)
Definition deleteVisitorBody (e : env) (serialNumber : string) : io reply :=
  visitors ← loadVisitors;
  match list_find (has_serial serialNumber) visitors with
  | None => mret (Answer (NotFound "Visitor not found"))
  | Some (visitorIndex, _) =>
      _ ← try_catch
            (_ ← fs_unlink (photoPath Visitor serialNumber "front");
             fs_unlink (photoPath Visitor serialNumber "back"))
            (λ err, logger_error "Error deleting photos:" err);
      _ ← saveVisitors e (delete visitorIndex visitors);
      mret (Message "Visitor deleted successfully")
  end.

Definition deleteVisitor (e : env) (serialNumber : string) : world → reply * world :=
  handler (deleteVisitorBody e serialNumber) "Error deleting visitor:"
    (λ _, Answer (Failed "Failed to delete visitor" None)).

(** *** The router *)

Inductive request :=
| GetVisitors
| PostVisitor (body : record)
| PostTimeout (serialNumber : string) (body : record)
| DeleteVisitor (serialNumber : string)
| DeleteVisitorAdjust (serialNumber : string)
| GetStats
| GetKeys
| PostKey (body : record)
| DeleteKey (serialNumber : string)
| PostKeyReturn (serialNumber : string) (body : record).

Definition answer (p : response * world) : reply * world := (Answer (fst p), snd p).

Definition serve (e : env) (req : request) (w : world) : reply * world :=
  match req with
  | GetVisitors => listAll Visitor w
  | PostVisitor body => answer (create e Visitor body w)
  | PostTimeout serialNumber body => answer (timeout e serialNumber body w)
  | DeleteVisitor serialNumber => deleteVisitor e serialNumber w
  | DeleteVisitorAdjust serialNumber => answer (deleteAdjust e Visitor serialNumber w)
  | GetStats => answer (stats w)
  | GetKeys => listAll Key w
  | PostKey body => answer (create e Key body w)
  | DeleteKey serialNumber => answer (deleteAdjust e Key serialNumber w)
  | PostKeyReturn serialNumber body => answer (keyReturn e serialNumber body w)
  end.

(** Requests served one after the other, each under its own faults. *)
Fixpoint serveAll (reqs : list (env * request)) (w : world) : world :=
  match reqs with
  | [] => w
  | (e, req) :: reqs' => serveAll reqs' (snd (serve e req w))
  end.

Definition isPlainDelete (req : request) : bool :=
  match req with DeleteVisitor _ => true | _ => false end.

End Routes.

Export Routes.

(** ** Start-up: initializeDataDirectories *)

Module Boot.

(** A collection file at start-up: absent, or there with a content that
    parses to a collection or does not. *)
Inductive file :=
| Absent
| Holds (content : option (list record)).

Record disk := Disk {
  directories : gset string;
  visitorsJson : file;
  keysJson : file;
  bootLog : list (string * exn)
}.

(** [fs.access(path)] resolves when the file is there. *)
Definition accessible (f : file) : bool :=
  match f with Absent => false | Holds _ => true end.

Definition failBoot (err : exn) (d : disk) : outcome unit * disk :=
  (Throw err,
   Disk (directories d) (visitorsJson d) (keysJson d)
     (bootLog d ++ [("Error initializing data directories:", err)])).

(** [mkdir_fault] tells for which directory [fs.mkdir(dir, { recursive:
    true })] rejects and with which message. *)
Definition initializeDataDirectories (e : env) (mkdir_fault : string → option string)
    (d : disk) : outcome unit * disk :=
  match mkdir_fault DATA_DIR with
  | Some msg => failBoot (SystemError msg) d
  | None =>
      let d1 := Disk ({[DATA_DIR]} ∪ directories d) (visitorsJson d) (keysJson d)
                  (bootLog d) in
      match mkdir_fault PHOTOS_DIR with
      | Some msg => failBoot (SystemError msg) d1
      | None =>
          let d2 := Disk ({[PHOTOS_DIR]} ∪ directories d1) (visitorsJson d1)
                      (keysJson d1) (bootLog d1) in
          if accessible (visitorsJson d2) && accessible (keysJson d2)
          then (Return (), d2)
          else
            match writeFile_fault e VISITORS_FILE with
            | Some msg => failBoot (SystemError msg) d2
            | None =>
                let d3 := Disk (directories d2) (Holds (Some [])) (keysJson d2)
                            (bootLog d2) in
                match writeFile_fault e KEYS_FILE with
                | Some msg => failBoot (SystemError msg) d3
                | None =>
                    (Return (),
                     Disk (directories d3) (visitorsJson d3) (Holds (Some []))
                       (bootLog d3))
                end
            end
      end
  end.

(** What the routes read from a file of the disk. *)
Definition readable (f : file) : option (list record) :=
  match f with Absent => None | Holds content => content end.

(** The world the routes start in. *)
Definition worldOf (d : disk) (photoFiles : gmap string string) : world :=
  World (readable (visitorsJson d)) (readable (keysJson d)) photoFiles [].

End Boot.

(** ** The next serial number of the multipart variant *)

Module VariantSerial.

(** A JS number as far as the model follows it: [NaN], an integer that a
    double holds exactly, or one beyond [2^53] in magnitude, which [parseInt]
    rounds and the model does not evaluate. *)
Inductive number :=
| NaN
| Int (z : Z)
| Rounded.

Definition exact (z : Z) : number :=
  if (Z.abs z <=? 2 ^ 53)%Z then Int z else Rounded.

Definition digitValue (radix : Z) (c : ascii) : option Z :=
  let n := Z.of_nat (nat_of_ascii c) in
  let v := if ((48 <=? n) && (n <=? 57))%Z then Some (n - 48)%Z
           else if ((97 <=? n) && (n <=? 122))%Z then Some (n - 87)%Z
           else if ((65 <=? n) && (n <=? 90))%Z then Some (n - 55)%Z
           else None in
  match v with
  | Some d => if (d <? radix)%Z then Some d else None
  | None => None
  end.

(** The value of the longest run of digits at the head of [s]; [acc] is
    [None] until a digit was read. *)
Fixpoint parseDigits (radix : Z) (s : string) (acc : option Z) : option Z :=
  match s with
  | EmptyString => acc
  | String c s' =>
      match digitValue radix c with
      | Some d => parseDigits radix s' (Some (radix * default 0%Z acc + d)%Z)
      | None => acc
      end
  end.

(** [parseInt(s)] without a radix: leading white space, a sign, a [0x] or
    [0X] prefix for base 16, then the digits; [NaN] when there is none. *)
Definition parseInt (s : string) : number :=
  let s1 := trimStart s in
  let '(negative, s2) :=
    match s1 with
    | String c rest =>
        if Ascii.eqb c "-" then (true, rest)
        else if Ascii.eqb c "+" then (false, rest)
        else (false, s1)
    | EmptyString => (false, s1)
    end in
  let '(radix, s3) :=
    match s2 with
    | String c0 (String c1 rest) =>
        if Ascii.eqb c0 "0" && (Ascii.eqb c1 "x" || Ascii.eqb c1 "X")
        then (16%Z, rest) else (10%Z, s2)
    | _ => (10%Z, s2)
    end in
  match parseDigits radix s3 None with
  | None => NaN
  | Some z => exact (if negative then - z else z)%Z
  end.

(** [n + 1] *)
Definition succNumber (n : number) : number :=
  match n with
  | Int z => exact (z + 1)
  | other => other
  end.

(** [n.toString()], where the model evaluates it. *)
Definition numberToString (n : number) : option string :=
  match n with
  | NaN => Some "NaN"
  | Int z =>
      Some (if (0 <=? z)%Z then toString (Z.to_nat z)
            else "-" +:+ toString (Z.to_nat (- z)))
  | Rounded => None
  end.

(** [getNextSerialNumber] on the state of [data/visitors.json]: a missing
    file (ENOENT) gives ['0001'], any other read or parse error is
    rethrown; the result is [None] where the model does not evaluate the
    number. *)
Definition getNextSerialNumber (f : Boot.file) : outcome (option string) :=
  match f with
  | Boot.Absent => Return (Some "0001")
  | Boot.Holds None => Throw (SystemError "cannot read data/visitors.json")
  | Boot.Holds (Some visitors) =>
      match last visitors with
      | None => Return (Some "0001")
      | Some lastVisitor =>
          let lastSerial := lastVisitor !! "serialNumber" in
          let nextNum := succNumber (parseInt (interpolate lastSerial)) in
          Return (padStart 4 "0" <$> numberToString nextNum)
      end
  end.

End VariantSerial.

(** ** The create route of the multipart variant *)

Module VariantCreate.

(** A stored visitor of the variant: the properties of the request, with
    [timeIn] set by the server, and the [photos] list, which holds the
    file names of the uploads. *)
Record entry := Entry {
  fields : record;
  photoNames : list string
}.

(** [data/visitors.json] as this route reads it: missing (ENOENT), there
    with a content that parses to a list, or such that [readFile] or
    [JSON.parse] throws the error [err], whose [code] is not ENOENT. *)
Inductive collection :=
| NoFile
| Unreadable (err : exn)
| File (visitors : list entry).

(** The collection file, the [uploads/] directory in which multer has
    stored the files of the request under their original names, and the
    error log. *)
Record state := State {
  visitorsJson : collection;
  uploads : gmap string string;
  errors : list (string * exn)
}.

(** [JSON.parse(req.body.visitorData)]: it throws, or gives [null], an
    object, or some other JSON value (a scalar or a list, on which every
    property the route reads is [undefined]). *)
Inductive parsed :=
| Unparsable (msg : string)
| NullRoot
| OtherRoot
| ObjectRoot (r : record).

Inductive reply :=
| Success (visitor : entry)
| Failure (error : string).

Definition uploadPath (name : string) : string := path_join "uploads" name.

Definition logError (text : string) (err : exn) (st : state) : state :=
  State (visitorsJson st) (uploads st) (errors st ++ [(text, err)]).

(** The first two statements of the route: parse, then validate. *)
Definition parseAndValidate (p : parsed) : outcome record :=
  match p with
  | Unparsable msg => Throw (Error msg)
  | NullRoot =>
      Throw (TypeError "Cannot read properties of null (reading 'name')")
  | OtherRoot =>
      match Variant.validateVisitorData ∅ with
      | Throw err => Throw err
      | Return _ => Return ∅
      end
  | ObjectRoot r =>
      match Variant.validateVisitorData r with
      | Throw err => Throw err
      | Return _ => Return r
      end
  end.

(** The inner [try] around the read: only a missing file is forgiven,
    every other error is thrown on. *)
Definition readVisitors (c : collection) : outcome (list entry) :=
  match c with
  | NoFile => Return []
  | File visitors => Return visitors
  | Unreadable err => Throw err
  end.

(** [{ ...visitorData, timeIn: now, photos: req.files.map(f => f.filename) }] *)
Definition newVisitor (now : string) (visitorData : record) (files : list string)
  : entry :=
  Entry (<["timeIn" := VStr now]> (delete "photos" visitorData)) files.

(** The loop that renames each upload to [`${serialNumber}_${originalname}`]. *)
Fixpoint renameUploads (serialNumber : option value) (files : list string)
    (up : gmap string string) : outcome unit * gmap string string :=
  match files with
  | [] => (Return (), up)
  | file :: files' =>
      let oldPath := uploadPath file in
      let newPath := uploadPath (interpolate serialNumber +:+ "_" +:+ file) in
      match up !! oldPath with
      | Some data =>
          renameUploads serialNumber files' (<[newPath := data]> (delete oldPath up))
      | None =>
          (Throw (SystemError ("ENOENT: no such file or directory, rename '"
                               +:+ oldPath +:+ "' -> '" +:+ newPath +:+ "'")), up)
      end
  end.

(** The loop of the [catch]: unlink each upload under its original name,
    logging the unlinks that fail. *)
Fixpoint unlinkUploads (files : list string) (st : state) : state :=
  match files with
  | [] => st
  | file :: files' =>
      match uploads st !! uploadPath file with
      | Some _ =>
          unlinkUploads files'
            (State (visitorsJson st) (delete (uploadPath file) (uploads st))
               (errors st))
      | None =>
          unlinkUploads files'
            (logError "Error deleting photos:"
               (SystemError ("ENOENT: no such file or directory, unlink '"
                             +:+ uploadPath file +:+ "'")) st)
      end
  end.

(** The body of the outer [try]. *)
Definition createBody (e : env) (now : string) (mkdir_fault : option string)
    (p : parsed) (files : list string) (st : state) : outcome entry * state :=
  match parseAndValidate p with
  | Throw err => (Throw err, st)
  | Return visitorData =>
      match readVisitors (visitorsJson st) with
      | Throw err => (Throw err, st)
      | Return visitors =>
          let visitor := newVisitor now visitorData files in
          match mkdir_fault with
          | Some msg => (Throw (SystemError msg), st)
          | None =>
              match writeFile_fault e VISITORS_FILE with
              | Some msg => (Throw (SystemError msg), st)
              | None =>
                  let st1 := State (File (visitors ++ [visitor]))
                               (uploads st) (errors st) in
                  match renameUploads (visitorData !! "serialNumber") files
                          (uploads st1) with
                  | (Return _, up) =>
                      (Return visitor, State (visitorsJson st1) up (errors st1))
                  | (Throw err, up) =>
                      (Throw err, State (visitorsJson st1) up (errors st1))
                  end
              end
          end
      end
  end.

Definition create (e : env) (now : string) (mkdir_fault : option string)
    (p : parsed) (files : list string) (st : state) : reply * state :=
  match createBody e now mkdir_fault p files st with
  | (Return visitor, st') => (Success visitor, st')
  | (Throw err, st') =>
      (Failure (or_else (message err) "Failed to create visitor"),
       unlinkUploads files (logError "Error creating visitor:" err st'))
  end.

End VariantCreate.

(** ** Vocabulary and sample data of the further properties *)

(** The photo directory after the two unlinks of the plain delete: the
    second one is only reached when the first file was there. *)
Definition afterUnlinks (front back : string) (ph : gmap string string)
  : gmap string string :=
  match ph !! front with
  | None => ph
  | Some _ => delete back (delete front ph)
  end.

(** The write of [path] is rejected with [msg] before the file is
    opened, so that the file is neither created nor truncated.  This is
    the reading of a write fault under which an [env] describes the disk
    completely. *)
Definition rejectsAtOpen (e : env) (path msg : string) : Prop :=
  writeFile_fault e path = Some msg.

(** A string of white space only, the empty string included. *)
Fixpoint allWhiteSpace (s : string) : bool :=
  match s with
  | EmptyString => true
  | String c s' => is_white_space c && allWhiteSpace s'
  end.

(** The white space below 256 by code unit: TAB, LF, VT, FF, CR, space
    and NBSP. *)
Definition whiteSpaceCodes : list nat := [9; 10; 11; 12; 13; 32; 160].

(** A string of these code units only, the empty string included. *)
Fixpoint whiteSpaceOnly (s : string) : bool :=
  match s with
  | EmptyString => true
  | String c s' =>
      bool_decide (nat_of_ascii c ∈ whiteSpaceCodes) && whiteSpaceOnly s'
  end.

(** The property [f] of [r] holds a string of white space only. *)
Definition holdsWhiteSpace (r : record) (f : string) : bool :=
  match r !! f with
  | Some (VStr s) => whiteSpaceOnly s
  | _ => false
  end.

Fixpoint allWordChars (s : string) : bool :=
  match s with
  | EmptyString => true
  | String c s' => is_word_char c && allWordChars s'
  end.

(** 1 for an active key record, 0 for a returned one. *)
Definition activeWeight (k : record) : nat :=
  if lacksTimeReturned k then 1 else 0.

Fixpoint allDigits (s : string) : bool :=
  match s with
  | EmptyString => true
  | String c s' => is_digit c && allDigits s'
  end.

Module Scenario.

(** The disk rejects every write of [data/visitors.json]. *)
Definition readOnlyVisitorsEnv : env :=
  Env "2024-01-15"
    (λ path, if String.eqb path VISITORS_FILE
             then Some "EROFS: read-only file system, open" else None).

(** The photo directory refuses to open the first visitor's back photo
    for writing. *)
Definition backPhotoDeniedEnv : env :=
  Env "2024-01-15"
    (λ path, if String.eqb path (photoPath Visitor "0001" "back")
             then Some "EACCES: permission denied, open 'data/photos/0001_back.jpg'"
             else None).

(** A visitor request whose name is TAB, LF, VT, FF, CR, space, NBSP,
    whose company is the empty string and whose purpose has a space on
    either side. *)
Definition blankNameForm : record :=
  <["name" := VStr (string_of_list_ascii
                      (ascii_of_nat <$> [9; 10; 11; 12; 13; 32; 160]))]>
    (<["company" := VStr ""]>
       (<["purpose" := VStr " Meeting "]> (Sample.visitorForm "Alice"))).

Definition mixedRequests : list (env * request) :=
  [(Sample.quietEnv, PostVisitor (Sample.visitorForm "Alice"));
   (Sample.quietEnv, PostVisitor (Sample.visitorForm "Bob"));
   (Sample.backPhotoFaultEnv, PostVisitor (Sample.visitorForm "Carol"));
   (Sample.quietEnv, PostKey (Sample.keyForm "Alice"));
   (Sample.quietEnv, DeleteVisitorAdjust "0001");
   (readOnlyVisitorsEnv, PostTimeout "0001" {["timeOut" := VStr "17:45"]});
   (Sample.quietEnv, PostKeyReturn "0001" {["timeReturned" := VStr "18:00"]});
   (Sample.quietEnv, GetStats)].

(** The visitors file holds a record, the keys file is missing. *)
Definition keysMissing : Boot.disk :=
  Boot.Disk ∅ (Boot.Holds (Some [Sample.visitorForm "Alice"])) Boot.Absent [].

(** A valid request to the variant with two uploads of the same name. *)
Definition variantData : record :=
  list_to_map [("serialNumber", VStr "0001"); ("name", VStr "Alice");
               ("purpose", VStr "Meeting"); ("personToMeet", VStr "Dana");
               ("idType", VStr "passport")].

Definition uploaded : VariantCreate.state :=
  VariantCreate.State VariantCreate.NoFile
    {[VariantCreate.uploadPath "id.jpg" := "scan"]} [].

End Scenario.

(** ** The primitives on examples *)

Example toString_12 : toString 12 = "12".
Proof. reflexivity. Qed.

Example serialOf_7 : serialOf 7 = "0007" ∧ serialOf 123 = "0123".
Proof. split; reflexivity. Qed.

Example serialOf_past_four_digits : serialOf (10 * 1000 + 1) = "10001".
Proof. vm_compute; reflexivity. Qed.

(** A collection file that is there but does not parse: the variant's
    create answers with the message of the parse error. *)
Example variant_create_rethrows_read_error :
  fst (VariantCreate.create Sample.quietEnv "2024-01-15T09:00:00.000Z" None
         (VariantCreate.ObjectRoot Scenario.variantData) ["id.jpg"]
         (VariantCreate.State
            (VariantCreate.Unreadable (Error "Unexpected end of JSON input"))
            {[VariantCreate.uploadPath "id.jpg" := "scan"]} []))
  = VariantCreate.Failure "Unexpected end of JSON input".
Proof. vm_compute; reflexivity. Qed.

Example trim_spaces : trim "  a b  " = "a b" ∧ trim "   " = "" ∧ trim "" = "".
Proof. repeat split; reflexivity. Qed.

Example strip_data_uri_jpeg :
  strip_data_uri "data:image/jpeg;base64,QUJD" = "QUJD"
  ∧ strip_data_uri "QUJD" = "QUJD"
  ∧ strip_data_uri "data:image/;base64,QUJD" = "data:image/;base64,QUJD".
Proof. repeat split; reflexivity. Qed.

Example idPattern_examples :
  test idPattern "784-1234-1234567-1" = true
  ∧ test idPattern "123-4567-8901234-5" = false
  ∧ test idPattern "784-1234-1234567-12" = false
  ∧ test idPattern " 784-1234-1234567-1" = false
  ∧ test idPattern "784-12a4-1234567-1" = false.
Proof. repeat split; reflexivity. Qed.

Example photo_names :
  photoPath Visitor "0003" "front" = "data/photos/0003_front.jpg"
  ∧ photoPath Key "0003" "back" = "data/photos/key_0003_back.jpg"
  ∧ photoUrl Key "0003" "front" = "/photos/key_0003_front.jpg".
Proof. repeat split; reflexivity. Qed.

Example stats_of_samples :
  fst (stats Sample.threeVisitors) = StatsOf 3 0
  ∧ fst (stats Sample.twoKeys) = StatsOf 0 1.
Proof. split; vm_compute; reflexivity. Qed.

(** ** The handler monad *)

Lemma add_log_add_log l1 l2 w : add_log l2 (add_log l1 w) = add_log (l1 ++ l2) w.
Proof. unfold add_log; simpl. by rewrite <- app_assoc. Qed.

Lemma add_log_nil w : add_log [] w = w.
Proof. destruct w; unfold add_log; simpl. by rewrite app_nil_r. Qed.

Lemma collection_file_add_log k l w :
  collection_file k (add_log l w) = collection_file k w.
Proof. by destruct k. Qed.

Lemma photos_add_log l w : photos (add_log l w) = photos w.
Proof. done. Qed.

Lemma load_run k w : load k w = (Return (stored k w), add_log (loadLog k w) w).
Proof.
  unfold load, stored, loadLog. destruct (collection_file k w); simpl; [|done].
  by rewrite add_log_nil.
Qed.

Lemma loadLog_readable k w : is_Some (collection_file k w) → loadLog k w = [].
Proof. intros [rs E]. unfold loadLog. by rewrite E. Qed.

Lemma save_ok e k rs w :
  writeFile_fault e (collection_path k) = None →
  save e k rs w = (Return (), set_collection_file k rs w).
Proof. intros H. unfold save, try_catch. by rewrite H. Qed.

Lemma save_fault e k rs w msg :
  writeFile_fault e (collection_path k) = Some msg →
  save e k rs w
  = (Throw (SystemError msg),
     add_log [("Error saving " +:+ kindNoun k +:+ ":", SystemError msg)] w).
Proof. intros H. unfold save, try_catch. by rewrite H. Qed.

Lemma deletePhotos_run k sn w :
  deletePhotos k sn w
  = (Return (), add_log [(deletePhotosLogText k,
                          TypeError "fs.existsSync is not a function")] w).
Proof. reflexivity. Qed.

Lemma renamePhotos_run k old new w :
  renamePhotos k old new w
  = (Return (), add_log [(renameLogText k old,
                          TypeError "fs.existsSync is not a function")] w).
Proof. reflexivity. Qed.

Lemma renumberFrom_run k rs : ∀ i w,
  renumberFrom k i rs w = (Return (renumbered k i rs), add_log (renameLog k rs) w).
Proof.
  induction rs as [|r rs IH]; intros i w; simpl.
  - unfold mret, io_ret. by rewrite add_log_nil.
  - unfold mbind, io_bind. rewrite renamePhotos_run, IH, add_log_add_log.
    reflexivity.
Qed.

(** ** Serial numbers *)

Lemma of_uint_D0 d : Nat.of_uint (D0 d) = Nat.of_uint d.
Proof. reflexivity. Qed.

Lemma uint_of_string_zeros n s :
  NilEmpty.uint_of_string (repeat_char n "0" +:+ s)
  = Nat.iter n (fmap D0) (NilEmpty.uint_of_string s).
Proof.
  induction n as [|n IH]; simpl; [done|].
  rewrite IH. reflexivity.
Qed.

Lemma parseSerial_serialOf n : parseSerial (serialOf n) = Some n.
Proof.
  unfold parseSerial, serialOf, padStart, toString.
  rewrite uint_of_string_zeros, NilEmpty.usu.
  generalize (4 - String.length (NilEmpty.string_of_uint (Nat.to_uint n))).
  intros m. induction m as [|m IH]; simpl.
  - by rewrite DecimalNat.Unsigned.of_to.
  - destruct (Nat.iter m (fmap D0) (Some (Nat.to_uint n))) as [d|]; simpl in *;
      [|done].
    by rewrite of_uint_D0.
Qed.

Lemma serialOf_inj a b : serialOf a = serialOf b → a = b.
Proof.
  intros H. apply (f_equal parseSerial) in H.
  rewrite !parseSerial_serialOf in H. congruence.
Qed.

Lemma length_repeat_char n c : String.length (repeat_char n c) = n.
Proof. induction n as [|n IH]; simpl; [done | by rewrite IH]. Qed.

Lemma string_length_app s t :
  String.length (s +:+ t) = String.length s + String.length t.
Proof. induction s as [|c s IH]; simpl; [done | by rewrite IH]. Qed.

(** Below 10000 a serial number has exactly four characters; from 10000 on
    it is the plain decimal numeral. *)
Lemma serialOf_length n :
  String.length (serialOf n) = Nat.max 4 (String.length (toString n)).
Proof.
  unfold serialOf, padStart. rewrite string_length_app, length_repeat_char. lia.
Qed.

(** ** The renumbering pass *)

Lemma length_renumbered k rs : ∀ i, length (renumbered k i rs) = length rs.
Proof. induction rs as [|r rs IH]; intros i; simpl; [done | by rewrite IH]. Qed.

Lemma renumberRecord_serial k i (r : record) :
  renumberRecord k i r !! "serialNumber" = Some (VStr (serialOf (i + 1))).
Proof.
  unfold renumberRecord.
  rewrite lookup_insert_ne by done. rewrite lookup_insert_ne by done.
  by rewrite lookup_insert_eq.
Qed.

Lemma renumberRecord_other k i (r : record) f :
  f ∉ ["serialNumber"; "frontPhoto"; "backPhoto"] →
  renumberRecord k i r !! f = r !! f.
Proof.
  intros Hf. unfold renumberRecord.
  rewrite !lookup_insert_ne; [done | | |]; intros Heq; subst f; apply Hf;
    set_solver.
Qed.

Lemma field_serial_renumbered k rs : ∀ i,
  field "serialNumber" (renumbered k i rs)
  = (λ n, Some (VStr (serialOf n))) <$> seq (i + 1) (length rs).
Proof.
  induction rs as [|r rs IH]; intros i; [done|].
  unfold field in *. cbn [renumbered length seq].
  rewrite !fmap_cons, renumberRecord_serial, IH.
  by replace (S i + 1) with (S (i + 1)) by lia.
Qed.

Lemma field_other_renumbered k f rs : ∀ i,
  f ∉ ["serialNumber"; "frontPhoto"; "backPhoto"] →
  field f (renumbered k i rs) = field f rs.
Proof.
  induction rs as [|r rs IH]; intros i Hf; [done|].
  unfold field in *. cbn [renumbered].
  rewrite !fmap_cons, renumberRecord_other, IH by done. done.
Qed.

Lemma dense_renumbered k rs : dense (renumbered k 0 rs).
Proof.
  unfold dense. by rewrite field_serial_renumbered, length_renumbered.
Qed.

Lemma dense_lookup rs i (r : record) :
  dense rs → rs !! i = Some r → r !! "serialNumber" = Some (VStr (serialOf (S i))).
Proof.
  unfold dense, field. intros Hd Hi.
  assert (Hlt : i < length rs) by (by eapply lookup_lt_Some).
  apply (f_equal (λ l, l !! i)) in Hd.
  rewrite !list_lookup_fmap, Hi in Hd. simpl in Hd.
  rewrite lookup_seq_lt in Hd by done. simpl in Hd. congruence.
Qed.

Lemma dense_unique rs sn i j (r r' : record) :
  dense rs →
  rs !! i = Some r → has_serial sn r →
  rs !! j = Some r' → has_serial sn r' →
  j = i.
Proof.
  intros Hd Hi Hr Hj Hr'. unfold has_serial in *.
  rewrite (dense_lookup _ _ _ Hd Hi) in Hr.
  rewrite (dense_lookup _ _ _ Hd Hj) in Hr'.
  assert (serialOf (S i) = serialOf (S j)) as H%serialOf_inj by congruence.
  lia.
Qed.

Lemma stored_set_collection_file k rs w :
  stored k (set_collection_file k rs w) = rs.
Proof. by destruct k. Qed.

Lemma photos_set_collection_file k rs w :
  photos (set_collection_file k rs w) = photos w.
Proof. by destruct k. Qed.

(** The log entries of a delete with adjustment that found its record at
    position [i]. *)
Lemma deleteAdjustBody_found e k sn w i (r : record) :
  list_find (has_serial sn) (stored k w) = Some (i, r) →
  writeFile_fault e (collection_path k) = None →
  deleteAdjustBody e k sn w
  = (Return (Adjusted (adjustedMessage k) (length (stored k w) - 1)),
     set_collection_file k (renumbered k 0 (delete i (stored k w)))
       (add_log (loadLog k w
                 ++ [(deletePhotosLogText k,
                      TypeError "fs.existsSync is not a function")]
                 ++ renameLog k (delete i (stored k w))) w)).
Proof.
  intros Hfind Hok.
  unfold deleteAdjustBody, mbind, io_bind. rewrite load_run, Hfind.
  rewrite deletePhotos_run, renumberFrom_run, save_ok by done.
  rewrite !add_log_add_log. unfold mret, io_ret.
  rewrite length_renumbered, length_delete; [done|].
  apply list_find_Some in Hfind as (Hi & _). eauto.
Qed.

Lemma deleteAdjust_found e k sn w i (r : record) :
  list_find (has_serial sn) (stored k w) = Some (i, r) →
  writeFile_fault e (collection_path k) = None →
  deleteAdjust e k sn w
  = (Adjusted (adjustedMessage k) (length (stored k w) - 1),
     set_collection_file k (renumbered k 0 (delete i (stored k w)))
       (add_log (loadLog k w
                 ++ [(deletePhotosLogText k,
                      TypeError "fs.existsSync is not a function")]
                 ++ renameLog k (delete i (stored k w))) w)).
Proof.
  intros Hfind Hok. unfold deleteAdjust, handler.
  destruct k; by rewrite (deleteAdjustBody_found _ _ _ _ _ _ Hfind Hok).
Qed.

Lemma deleteAdjust_absent e k sn w :
  list_find (has_serial sn) (stored k w) = None →
  deleteAdjust e k sn w = (NotFound (notFoundError k), add_log (loadLog k w) w).
Proof.
  intros Hfind.
  unfold deleteAdjust, handler, deleteAdjustBody, mbind, io_bind.
  destruct k; by rewrite load_run, Hfind.
Qed.

(** ** Delete with adjustment *)

(** C1. On a collection whose serial numbers are [0001..N] in list order,
    delete-with-adjust of an existing serial number (and no storage fault)
    removes the one record that carries it, answers the remaining count,
    and leaves a collection whose serial numbers are [0001..N-1] in list
    order; apart from the serial number and the two photo references the
    remaining records are the original ones in their original order. *)
Theorem delete_adjust_keeps_serials_dense e k w sn :
  dense (stored k w) →
  Some (VStr sn) ∈ field "serialNumber" (stored k w) →
  writeFile_fault e (collection_path k) = None →
  ∃ i (r : record) w',
    stored k w !! i = Some r ∧ has_serial sn r
    ∧ (∀ j (r' : record), stored k w !! j = Some r' → has_serial sn r' → j = i)
    ∧ deleteAdjust e k sn w
      = (Adjusted (adjustedMessage k) (length (stored k w) - 1), w')
    ∧ length (stored k w') = length (stored k w) - 1
    ∧ field "serialNumber" (stored k w')
      = (λ n, Some (VStr (serialOf n))) <$> seq 1 (length (stored k w'))
    ∧ (∀ f, f ∉ ["serialNumber"; "frontPhoto"; "backPhoto"] →
            field f (stored k w') = field f (delete i (stored k w))).
Proof.
  intros Hdense Hin Hok.
  destruct (list_find (has_serial sn) (stored k w)) as [[i r]|] eqn:Hfind.
  - pose proof (deleteAdjust_found e k sn w i r Hfind Hok) as Hrun.
    pose proof Hfind as (Hi & Hr & _)%list_find_Some.
    exists i, r. eexists. split; [done|]. split; [done|].
    split; [intros j r' Hj Hr'; by eapply dense_unique|].
    split; [exact Hrun|].
    rewrite stored_set_collection_file, length_renumbered.
    split; [apply length_delete; eauto|].
    split; [apply field_serial_renumbered|].
    intros f Hf. by apply field_other_renumbered.
  - exfalso. unfold field in Hin.
    apply list_elem_of_fmap in Hin as (r & Hr & Hin).
    eapply list_find_None in Hfind. rewrite Forall_forall in Hfind.
    by apply (Hfind r).
Qed.

Lemma delete_adjust_keeps_serials_dense_witness :
  dense (stored Visitor Sample.threeVisitors)
  ∧ ∃ i (r : record) w',
      stored Visitor Sample.threeVisitors !! i = Some r ∧ has_serial "0002" r
      ∧ (∀ j (r' : record), stored Visitor Sample.threeVisitors !! j = Some r' →
                            has_serial "0002" r' → j = i)
      ∧ deleteAdjust Sample.quietEnv Visitor "0002" Sample.threeVisitors
        = (Adjusted (adjustedMessage Visitor) 2, w')
      ∧ length (stored Visitor w') = 2
      ∧ field "serialNumber" (stored Visitor w')
        = [Some (VStr "0001"); Some (VStr "0002")]
      ∧ (∀ f, f ∉ ["serialNumber"; "frontPhoto"; "backPhoto"] →
              field f (stored Visitor w')
              = field f (delete i (stored Visitor Sample.threeVisitors))).
Proof.
  split; [vm_compute; reflexivity|].
  destruct (delete_adjust_keeps_serials_dense Sample.quietEnv Visitor
              Sample.threeVisitors "0002")
    as (i & r & w' & H1 & H2 & H3 & H4 & H5 & H6 & H7).
  - vm_compute; reflexivity.
  - apply (bool_decide_unpack _). vm_compute. exact I.
  - reflexivity.
  - exists i, r, w'.
    split; [exact H1|]. split; [exact H2|]. split; [exact H3|].
    split; [exact H4|]. split; [exact H5|]. split; [|exact H7].
    rewrite H6, H5. reflexivity.
Defined.

(** C4. Delete-with-adjust of a serial number that no record carries
    answers "not found" and writes nothing: both collection files and the
    photo directory are as before. *)
Theorem delete_adjust_not_found e k w sn :
  Some (VStr sn) ∉ field "serialNumber" (stored k w) →
  ∃ w', deleteAdjust e k sn w = (NotFound (notFoundError k), w')
        ∧ visitors_file w' = visitors_file w
        ∧ keys_file w' = keys_file w
        ∧ photos w' = photos w
        ∧ (is_Some (collection_file k w) → w' = w).
Proof.
  intros Hnot. eexists. split.
  - apply deleteAdjust_absent, list_find_None, Forall_forall. intros r Hr Hs.
    apply Hnot. unfold field. apply list_elem_of_fmap. by exists r.
  - repeat split; try done.
    intros Hsome. rewrite (loadLog_readable _ _ Hsome). apply add_log_nil.
Qed.

Lemma delete_adjust_not_found_witness :
  (Some (VStr "0007") ∉ field "serialNumber" (stored Visitor Sample.threeVisitors))
  ∧ ∃ w', deleteAdjust Sample.quietEnv Visitor "0007" Sample.threeVisitors
          = (NotFound "Visitor not found", w')
          ∧ visitors_file w' = visitors_file Sample.threeVisitors
          ∧ keys_file w' = keys_file Sample.threeVisitors
          ∧ photos w' = photos Sample.threeVisitors
          ∧ (is_Some (collection_file Visitor Sample.threeVisitors) →
             w' = Sample.threeVisitors).
Proof.
  assert (Hnot : Some (VStr "0007")
                 ∉ field "serialNumber" (stored Visitor Sample.threeVisitors)).
  { apply (bool_decide_unpack _). vm_compute. exact I. }
  split; [exact Hnot|].
  exact (delete_adjust_not_found Sample.quietEnv Visitor Sample.threeVisitors
           "0007" Hnot).
Defined.

(** ** Validation *)

Lemma collectMissing_spec k (r : record) fields : ∀ acc,
  collectMissing k fields r acc
  = if forallb (λ f, isText (r !! f)) fields
    then Return (acc ++ List.filter (λ f, isBlank (r !! f)) fields)
    else Throw (TypeError (param k +:+ "[field].trim is not a function")).
Proof.
  induction fields as [|f fields IH]; intros acc; cbn [collectMissing forallb List.filter].
  - by rewrite app_nil_r.
  - unfold isText at 1, isBlank at 1.
    destruct (r !! f) as [[| b | n | s |]|] eqn:Hf; cbn [truthy negb orb andb].
    all: try (rewrite IH, <- app_assoc; reflexivity).
    all: try reflexivity.
    + destruct b; cbn [negb orb andb]; [done|].
      by rewrite IH, <- app_assoc.
    + destruct (n =? 0)%Z; cbn [negb orb andb]; [|done].
      by rewrite IH, <- app_assoc.
    + destruct (String.eqb s "") eqn:Hs; cbn [negb orb andb].
      * by rewrite IH, <- app_assoc.
      * destruct (String.eqb (trim s) ""); by rewrite IH, <- ?app_assoc.
Qed.

Lemma validate_spec k (r : record) :
  validate k r
  = if negb (forallb (λ f, isText (r !! f)) (Server.requiredFields k))
    then Throw (TypeError (param k +:+ "[field].trim is not a function"))
    else match missing k r with
         | _ :: _ =>
             Throw (Error ("Missing required fields: "
                           +:+ String.concat ", " (missing k r)))
         | [] =>
             if negb (idNumber_conforms r)
             then Throw (Error (idFormatError k))
             else if negb (truthy (r !! "frontPhoto"))
                     || negb (truthy (r !! "backPhoto"))
             then Throw (Error "Both front and back ID photos are required")
             else Return true
         end.
Proof.
  unfold validate, missing. rewrite collectMissing_spec.
  destruct (forallb _ _); simpl; [|done].
  by destruct (List.filter _ _).
Qed.

Lemma present_isText v : present v → isText v = true.
Proof. intros (s & -> & _). unfold isText. apply orb_true_r. Qed.

Lemma trim_empty : trim "" = "".
Proof. reflexivity. Qed.

Lemma present_isBlank v : present v → isBlank v = false.
Proof.
  intros (s & -> & Hs). unfold isBlank; simpl.
  destruct (String.eqb s "") eqn:E.
  - apply String.eqb_eq in E. subst s. by rewrite trim_empty in Hs.
  - simpl. by apply String.eqb_neq.
Qed.

Lemma payload_truthy v : payload v → truthy v = true.
Proof.
  intros (s & -> & Hs). simpl. apply negb_true_iff. by apply String.eqb_neq.
Qed.

Lemma all_present_isText k (r : record) :
  (∀ f, f ∈ Server.requiredFields k → present (r !! f)) →
  forallb (λ f, isText (r !! f)) (Server.requiredFields k) = true.
Proof.
  intros H. apply forallb_forall. intros f Hf%list_elem_of_In.
  by apply present_isText, H.
Qed.

Lemma all_present_missing k (r : record) :
  (∀ f, f ∈ Server.requiredFields k → present (r !! f)) → missing k r = [].
Proof.
  intros H. unfold missing.
  induction (Server.requiredFields k) as [|f fs IH]; [done|]. simpl.
  rewrite present_isBlank by (apply H; set_solver).
  apply IH. intros f' Hf'. apply H. set_solver.
Qed.

Lemma or_else_message text tail fallback :
  text ≠ "" → or_else (text +:+ tail) fallback = text +:+ tail.
Proof. intros H. by destruct text. Qed.

Lemma or_else_idFormatError k fallback :
  or_else (idFormatError k) fallback = idFormatError k.
Proof. by destruct k. Qed.

(** ** Create *)

Lemma stampDate_lookup_ne e k (r : record) f :
  f ≠ "date" → stampDate e k r !! f = r !! f.
Proof.
  intros Hf. unfold stampDate. destruct k.
  - by rewrite lookup_insert_ne.
  - destruct (negb _); [by rewrite lookup_insert_ne | done].
Qed.

Lemma createBody_run e k (body : record) w :
  createBody e k body w
  = match validate k body with
    | Throw err => (Throw err, w)
    | Return _ => createAfterLoad e k body (stored k w) (add_log (loadLog k w) w)
    end.
Proof.
  unfold createBody, mbind, io_bind, lift.
  destruct (validate k body) as [ok|err]; [|done].
  rewrite load_run. unfold createAfterLoad, photoData.
  rewrite !stampDate_lookup_ne by done. rewrite !lookup_insert_ne by done.
  destruct (body !! "frontPhoto") as [[| | | front |]|]; try done.
  unfold mret, io_ret.
  destruct (body !! "backPhoto") as [[| | | back |]|]; try done.
  unfold fs_writeFile. fold (serialOf (length (stored k w) + 1)).
  destruct (writeFile_fault e (photoPath k _ "front")); [done|].
  destruct (writeFile_fault e (photoPath k _ "back")); [done|].
  destruct (writeFile_fault e (collection_path k)) as [msg|] eqn:Hsave.
  - rewrite (save_fault _ _ _ _ msg) by done. done.
  - rewrite save_ok by done. done.
Qed.

Lemma createAfterLoad_collections e k body rs w0 o w1 :
  createAfterLoad e k body rs w0 = (o, w1) →
  match o with
  | Return resp =>
      resp = Created (createdMessage k) (createdRecord e k (length rs) body)
      ∧ stored k w1 = rs ++ [createdRecord e k (length rs) body]
  | Throw _ =>
      visitors_file w1 = visitors_file w0 ∧ keys_file w1 = keys_file w0
  end.
Proof.
  unfold createAfterLoad.
  destruct (body !! "frontPhoto") as [[| | | front |]|];
    destruct (body !! "backPhoto") as [[| | | back |]|];
    try (intros [= <- <-]; done).
  destruct (writeFile_fault e (photoPath k _ "front"));
    [intros [= <- <-]; done|].
  destruct (writeFile_fault e (photoPath k _ "back"));
    [intros [= <- <-]; done|].
  destruct (writeFile_fault e (collection_path k)); intros [= <- <-].
  - done.
  - by rewrite stored_set_collection_file.
Qed.

(** A create that answers 201 passed validation, stored the record built
    from the collection size and appended it. *)
Lemma create_Created_inv e k (body : record) w msg data w' :
  create e k body w = (Created msg data, w') →
  validate k body = Return true
  ∧ msg = createdMessage k
  ∧ data = createdRecord e k (length (stored k w)) body
  ∧ stored k w' = stored k w ++ [data].
Proof.
  unfold create, handler. rewrite createBody_run.
  destruct (validate k body) as [ok|err] eqn:Hv; [|done].
  destruct (createAfterLoad e k body (stored k w) (add_log (loadLog k w) w))
    as [[resp|err] w1] eqn:Hrun; [|done].
  apply createAfterLoad_collections in Hrun as [-> Hst].
  intros [= <- <- <-]. repeat split; try done.
  revert Hv. rewrite validate_spec. repeat case_match; congruence.
Qed.

(** A create that answers 400 leaves both collection files as they were. *)
Lemma create_BadRequest_collections e k (body : record) w msg w' :
  create e k body w = (BadRequest msg, w') →
  visitors_file w' = visitors_file w ∧ keys_file w' = keys_file w.
Proof.
  unfold create, handler. rewrite createBody_run.
  destruct (validate k body) as [ok|err] eqn:Hv.
  - destruct (createAfterLoad e k body (stored k w) (add_log (loadLog k w) w))
      as [[resp|err] w1] eqn:Hrun.
    + apply createAfterLoad_collections in Hrun as [-> _]. done.
    + apply createAfterLoad_collections in Hrun as [H1 H2].
      intros [= _ <-]. simpl. by rewrite H1, H2.
  - by intros [= _ <-].
Qed.

Lemma createdRecord_serial e k n (body : record) :
  createdRecord e k n body !! "serialNumber" = Some (VStr (serialOf (n + 1))).
Proof.
  unfold createdRecord. rewrite !lookup_insert_ne by done.
  rewrite stampDate_lookup_ne by done. by rewrite lookup_insert_eq.
Qed.

Lemma isText_not_isBlank_present v :
  isText v = true → isBlank v = false → present v.
Proof.
  unfold isText, isBlank, present.
  destruct v as [[| b | n | s |]|]; simpl; try done.
  - destruct b; done.
  - destruct (n =? 0)%Z; done.
  - intros _ H. exists s. split; [done|].
    apply orb_false_iff in H as [_ H]. by apply String.eqb_neq.
Qed.

Lemma validate_true_present k (r : record) f :
  validate k r = Return true → f ∈ Server.requiredFields k → present (r !! f).
Proof.
  rewrite validate_spec. unfold missing.
  destruct (forallb _ _) eqn:Htext; simpl; [|done].
  destruct (List.filter _ _) eqn:Hblank; [|done].
  intros _ Hf%list_elem_of_In. apply isText_not_isBlank_present.
  - by apply (proj1 (forallb_forall _ _) Htext).
  - destruct (isBlank (r !! f)) eqn:E; [|done].
    assert (Hin : In f (List.filter (λ f, isBlank (r !! f)) (Server.requiredFields k)))
      by (apply filter_In; done).
    rewrite Hblank in Hin. destruct Hin.
Qed.







Lemma present_truthy v : present v → truthy v = true.
Proof.
  intros (s & -> & Hs). simpl. apply negb_true_iff, String.eqb_neq.
  intros ->. by rewrite trim_empty in Hs.
Qed.

Lemma or_else_trim_message k fallback :
  or_else (param k +:+ "[field].trim is not a function") fallback
  = param k +:+ "[field].trim is not a function".
Proof. by destruct k. Qed.

(** A create whose validation throws answers 400 with the message of the
    error, logs it and touches nothing else. *)
Lemma create_validation_throw e k (body : record) w err :
  validate k body = Throw err →
  create e k body w
  = (BadRequest (or_else (message err) (createFailure k)),
     add_log [(createLogText k, err)] w).
Proof.
  intros Hv. unfold create, handler. by rewrite createBody_run, Hv.
Qed.

Lemma serial_and_date_required k f :
  f ∈ ["serialNumber"; "date"] → f ∈ Server.requiredFields k.
Proof.
  intros [->| ->%list_elem_of_singleton]%elem_of_cons; destruct k;
    apply (bool_decide_unpack _); vm_compute; exact I.
Qed.

Lemma createdRecord_date e k n (body : record) :
  present (body !! "date") →
  createdRecord e k n body !! "date"
  = match k with
    | Visitor => Some (VStr (today e))
    | Key => body !! "date"
    end.
Proof.
  intros Hd. unfold createdRecord. rewrite !lookup_insert_ne by done.
  unfold stampDate. destruct k.
  - by rewrite lookup_insert_eq.
  - rewrite lookup_insert_ne by done. rewrite (present_truthy _ Hd). simpl.
    by rewrite lookup_insert_ne.
Qed.

(** C10. Create answers 400 when the serial number or the date of the
    request is absent or blank, although a successful create then
    overwrites the serial number in both flows and the date in the
    visitor flow, while the key flow keeps the date of the request. *)
Theorem create_requires_then_overwrites e k (body : record) w :
  (∀ f, f ∈ ["serialNumber"; "date"] → isBlank (body !! f) = true →
     ∃ msg w',
       create e k body w = (BadRequest msg, w')
       ∧ visitors_file w' = visitors_file w ∧ keys_file w' = keys_file w
       ∧ photos w' = photos w
       ∧ (forallb (λ g, isText (body !! g)) (Server.requiredFields k) = true →
          f ∈ missing k body
          ∧ msg = "Missing required fields: " +:+ String.concat ", " (missing k body)))
  ∧ (∀ msg data w',
       create e k body w = (Created msg data, w') →
       data !! "serialNumber" = Some (VStr (serialOf (length (stored k w) + 1)))
       ∧ data !! "date" = match k with
                          | Visitor => Some (VStr (today e))
                          | Key => body !! "date"
                          end).
Proof.
  split.
  - intros f Hf Hblank. apply (serial_and_date_required k) in Hf.
    assert (Hin : f ∈ missing k body).
    { unfold missing. apply list_elem_of_In, filter_In.
      split; [by apply list_elem_of_In | done]. }
    pose proof (validate_spec k body) as Hv.
    destruct (forallb _ _) eqn:Htext; simpl in Hv.
    + destruct (missing k body) as [|m ms] eqn:Hm; [by apply elem_of_nil in Hin|].
      rewrite (create_validation_throw _ _ _ _ _ Hv). simpl message.
      rewrite or_else_message by done. eauto 10.
    + rewrite (create_validation_throw _ _ _ _ _ Hv). simpl message.
      rewrite or_else_trim_message. eexists _, _.
      repeat split; try done.
  - intros msg data w' Hrun.
    apply create_Created_inv in Hrun as (Hv & _ & -> & _).
    split; [apply createdRecord_serial|].
    apply createdRecord_date. eapply validate_true_present; [done|].
    apply serial_and_date_required. set_solver.
Qed.

Lemma create_requires_then_overwrites_witness :
  (∃ msg w',
     create Sample.quietEnv Key (delete "date" (Sample.keyForm "Alice"))
       Sample.emptyWorld = (BadRequest msg, w')
     ∧ msg = "Missing required fields: date")
  ∧ (∃ data w',
       create Sample.quietEnv Key (Sample.keyForm "Alice") Sample.emptyWorld
       = (Created "Key entry created successfully" data, w')
       ∧ Sample.keyForm "Alice" !! "serialNumber" = Some (VStr "9999")
       ∧ data !! "serialNumber" = Some (VStr "0001")
       ∧ data !! "date" = Some (VStr "1999-12-31")).
Proof.
  split.
  - destruct (create_requires_then_overwrites Sample.quietEnv Key
                (delete "date" (Sample.keyForm "Alice")) Sample.emptyWorld)
      as [Hreject _].
    destruct (Hreject "date") as (msg & w' & Hrun & _ & _ & _ & Hmsg).
    + apply list_elem_of_further, list_elem_of_here.
    + vm_compute; reflexivity.
    + exists msg, w'. split; [exact Hrun|].
      destruct Hmsg as [_ ->]; vm_compute; reflexivity.
  - pose (data := createdRecord Sample.quietEnv Key 0 (Sample.keyForm "Alice")).
    pose (w' := snd (create Sample.quietEnv Key (Sample.keyForm "Alice")
                       Sample.emptyWorld)).
    assert (Hrun : create Sample.quietEnv Key (Sample.keyForm "Alice")
                     Sample.emptyWorld
                   = (Created "Key entry created successfully" data, w'))
      by (vm_compute; reflexivity).
    exists data, w'. split; [exact Hrun|]. split; [vm_compute; reflexivity|].
    destruct (create_requires_then_overwrites Sample.quietEnv Key
                (Sample.keyForm "Alice") Sample.emptyWorld) as [_ Hstore].
    destruct (Hstore _ _ _ Hrun) as [H1 H2]. split; [exact H1|].
    rewrite H2. vm_compute; reflexivity.
Defined.

(** ** Messages that name fields *)

Lemma prefix_app f post : String.prefix f (f +:+ post) = true.
Proof.
  induction f as [|c f IH]; simpl; [by destruct post|].
  destruct (ascii_dec c c); [done | congruence].
Qed.

Lemma index_0_cons f a t :
  String.index 0 f (String a t)
  = if String.prefix f (String a t) then Some 0
    else match String.index 0 f t with Some n => Some (S n) | None => None end.
Proof. reflexivity. Qed.

Lemma mentions_app pre f post : mentions f (pre +:+ f +:+ post) = true.
Proof.
  unfold mentions. induction pre as [|c pre IH].
  - change ("" +:+ f +:+ post) with (f +:+ post).
    destruct (f +:+ post) as [|a rest] eqn:E.
    + destruct f; [done | discriminate].
    + by rewrite index_0_cons, <- E, prefix_app.
  - change (String c pre +:+ f +:+ post) with (String c (pre +:+ f +:+ post)).
    rewrite index_0_cons.
    destruct (String.prefix f (String c (pre +:+ f +:+ post))); [done|].
    by destruct (String.index 0 f (pre +:+ f +:+ post)).
Qed.

Lemma string_app_assoc (a b c : string) : (a +:+ b) +:+ c = a +:+ b +:+ c.
Proof.
  induction a as [|x a IH]; [done|].
  change (String x ((a +:+ b) +:+ c) = String x (a +:+ b +:+ c)).
  by rewrite IH.
Qed.

Lemma string_app_nil_r (a : string) : a +:+ "" = a.
Proof.
  induction a as [|x a IH]; [done|].
  change (String x (a +:+ "") = String x a). by rewrite IH.
Qed.

Lemma concat_names sep (l : list string) f :
  f ∈ l → ∃ pre post, String.concat sep l = pre +:+ f +:+ post.
Proof.
  induction l as [|x l IH]; intros Hf; [by apply elem_of_nil in Hf|].
  apply elem_of_cons in Hf as [->|Hf].
  - exists "". destruct l as [|y l]; simpl.
    + exists "". by rewrite string_app_nil_r.
    + by eexists.
  - destruct (IH Hf) as (pre & post & Heq).
    destruct l as [|y l]; [by apply elem_of_nil in Hf|].
    exists (x +:+ sep +:+ pre), post.
    change (String.concat sep (x :: y :: l))
      with (x +:+ sep +:+ String.concat sep (y :: l)).
    by rewrite Heq, !string_app_assoc.
Qed.

Lemma missing_message_names (l : list string) f :
  f ∈ l → mentions f ("Missing required fields: " +:+ String.concat ", " l) = true.
Proof.
  intros (pre & post & ->)%(concat_names ", ").
  rewrite <- string_app_assoc. apply mentions_app.
Qed.

(** ** Missing fields *)

Lemma checkFields_first fields (data : record) :
  Variant.checkFields fields data
  = match List.find (λ f, negb (truthy (data !! f))) fields with
    | Some f => Throw (Error ("Missing required field: " +:+ f))
    | None => Return ()
    end.
Proof.
  induction fields as [|f fields IH]; simpl; [done|].
  by destruct (negb (truthy (data !! f))).
Qed.

(** C5, as amended.  In the main server a create whose required
    properties are each falsy or a string, and one or more of them missing,
    answers 400 with "Missing required fields: " followed by all the
    missing fields in the order of the list of required fields, so that the
    message names every one of them.  The validator of the multipart
    variant throws at the first missing field and names that one only. *)
Theorem create_names_all_missing_fields e k (body : record) w :
  forallb (λ f, isText (body !! f)) (Server.requiredFields k) = true →
  missing k body ≠ [] →
  create e k body w
  = (BadRequest ("Missing required fields: " +:+ String.concat ", " (missing k body)),
     add_log [(createLogText k,
               Error ("Missing required fields: "
                      +:+ String.concat ", " (missing k body)))] w)
  ∧ (∀ f, f ∈ Server.requiredFields k → isBlank (body !! f) = true →
          mentions f ("Missing required fields: "
                      +:+ String.concat ", " (missing k body)) = true)
  ∧ (∀ (data : record) f,
       List.find (λ f, negb (truthy (data !! f))) Variant.requiredFields = Some f →
       Variant.validateVisitorData data
       = Throw (Error ("Missing required field: " +:+ f))).
Proof.
  intros Htext Hmissing. split; [|split].
  - pose proof (validate_spec k body) as Hv. rewrite Htext in Hv. simpl in Hv.
    destruct (missing k body) as [|m ms] eqn:Hm; [done|].
    rewrite (create_validation_throw _ _ _ _ _ Hv). simpl message.
    by rewrite or_else_message.
  - intros f Hf Hblank. apply missing_message_names.
    unfold missing. apply list_elem_of_In, filter_In.
    split; [by apply list_elem_of_In | done].
  - intros data f Hfind. unfold Variant.validateVisitorData.
    by rewrite checkFields_first, Hfind.
Qed.

Lemma create_names_all_missing_fields_witness :
  missing Visitor (delete "name" (delete "company" (Sample.visitorForm "Alice")))
  = ["name"; "company"]
  ∧ fst (create Sample.quietEnv Visitor
           (delete "name" (delete "company" (Sample.visitorForm "Alice")))
           Sample.emptyWorld)
    = BadRequest "Missing required fields: name, company".
Proof.
  split; [vm_compute; reflexivity|].
  destruct (create_names_all_missing_fields Sample.quietEnv Visitor
              (delete "name" (delete "company" (Sample.visitorForm "Alice")))
              Sample.emptyWorld) as (Hrun & _ & _).
  - vm_compute; reflexivity.
  - vm_compute; discriminate.
  - rewrite Hrun. vm_compute; reflexivity.
Defined.

(** C5 as stated fails: that every create names all missing fields does
    not hold on the multipart variant, which names the first one only, and on a request to
    the main server in which a required property is a number. *)
Lemma validation_can_name_fewer_fields :
  Sample.variantForm !! "name" = None
  ∧ Sample.variantForm !! "purpose" = None
  ∧ Variant.validateVisitorData Sample.variantForm
    = Throw (Error "Missing required field: name")
  ∧ mentions "purpose" "Missing required field: name" = false
  ∧ Sample.numberNameForm !! "company" = None
  ∧ fst (create Sample.quietEnv Visitor Sample.numberNameForm Sample.emptyWorld)
    = BadRequest "visitor[field].trim is not a function"
  ∧ mentions "company" "visitor[field].trim is not a function" = false.
Proof. repeat split; vm_compute; reflexivity. Qed.

(** ** The identity number pattern *)

(** C6. With every required property present, create answers 400 with
    the format error when the identity number does not match
    [^784-\d{4}-\d{7}-\d$], as [123-4567-8901234-5] does not; when it
    matches, as [784-1234-1234567-1] does, and both photo payloads are
    there, create (without a storage fault) answers 201 and appends the
    record. *)
Theorem create_checks_id_pattern e k (body : record) w idNumber :
  (∀ f, f ∈ Server.requiredFields k → present (body !! f)) →
  body !! "idNumber" = Some (VStr idNumber) →
  (test idPattern idNumber = false →
     create e k body w
     = (BadRequest (idFormatError k),
        add_log [(createLogText k, Error (idFormatError k))] w))
  ∧ (test idPattern idNumber = true →
     payload (body !! "frontPhoto") → payload (body !! "backPhoto") →
     writeFile_fault e (photoPath k (serialOf (length (stored k w) + 1)) "front") = None →
     writeFile_fault e (photoPath k (serialOf (length (stored k w) + 1)) "back") = None →
     writeFile_fault e (collection_path k) = None →
     ∃ w', create e k body w
           = (Created (createdMessage k)
                (createdRecord e k (length (stored k w)) body), w')
           ∧ stored k w' = stored k w ++ [createdRecord e k (length (stored k w)) body])
  ∧ test idPattern "123-4567-8901234-5" = false
  ∧ test idPattern "784-1234-1234567-1" = true.
Proof.
  intros Hpres Hid.
  pose proof (validate_spec k body) as Hv.
  rewrite (all_present_isText _ _ Hpres), (all_present_missing _ _ Hpres) in Hv.
  unfold idNumber_conforms in Hv. rewrite Hid in Hv. cbn [negb interpolate] in Hv.
  split; [|split; [|split; reflexivity]].
  - intros Htest. rewrite Htest in Hv. cbn [negb] in Hv.
    rewrite (create_validation_throw _ _ _ _ _ Hv). simpl message.
    by rewrite or_else_idFormatError.
  - intros Htest Hfront Hback Hw1 Hw2 Hw3. rewrite Htest in Hv.
    rewrite (payload_truthy _ Hfront), (payload_truthy _ Hback) in Hv.
    cbn [negb orb] in Hv. destruct Hfront as (front & Hfront & _).
    destruct Hback as (back & Hback & _).
    eexists. unfold create, handler. rewrite createBody_run, Hv.
    unfold createAfterLoad. rewrite Hfront, Hback, Hw1, Hw2, Hw3.
    split; [reflexivity|]. by rewrite stored_set_collection_file.
Qed.

Lemma create_checks_id_pattern_witness :
  fst (create Sample.quietEnv Visitor
         (<["idNumber" := VStr "123-4567-8901234-5"]> (Sample.visitorForm "Alice"))
         Sample.emptyWorld)
  = BadRequest "Invalid ID Number format"
  ∧ ∃ w', create Sample.quietEnv Visitor (Sample.visitorForm "Alice")
            Sample.emptyWorld
          = (Created "Visitor created successfully"
               (createdRecord Sample.quietEnv Visitor 0 (Sample.visitorForm "Alice")),
             w')
          ∧ stored Visitor w'
            = [createdRecord Sample.quietEnv Visitor 0 (Sample.visitorForm "Alice")].
Proof.
  assert (Hpres : ∀ v f, f ∈ Server.requiredFields Visitor →
            present (<["idNumber" := VStr v]> (Sample.visitorForm "Alice") !! f)
            ∨ f = "idNumber").
  { intros v f Hf. destruct (decide (f = "idNumber")) as [|Hne]; [by right|left].
    rewrite lookup_insert_ne by done.
    repeat (apply elem_of_cons in Hf as [->|Hf];
            [eexists; split; [vm_compute; reflexivity | vm_compute; discriminate]|]).
    by apply elem_of_nil in Hf. }
  split.
  - destruct (create_checks_id_pattern Sample.quietEnv Visitor
                (<["idNumber" := VStr "123-4567-8901234-5"]> (Sample.visitorForm "Alice"))
                Sample.emptyWorld "123-4567-8901234-5") as (Hbad & _).
    + intros f Hf. destruct (Hpres "123-4567-8901234-5" f Hf) as [? | ->]; [done|].
      eexists; split; [vm_compute; reflexivity | vm_compute; discriminate].
    + vm_compute; reflexivity.
    + rewrite Hbad by reflexivity. reflexivity.
  - destruct (create_checks_id_pattern Sample.quietEnv Visitor
                (Sample.visitorForm "Alice") Sample.emptyWorld "784-1234-1234567-1")
      as (_ & Hgood & _).
    + intros f Hf.
      repeat (apply elem_of_cons in Hf as [->|Hf];
              [eexists; split; [vm_compute; reflexivity | vm_compute; discriminate]|]).
      by apply elem_of_nil in Hf.
    + vm_compute; reflexivity.
    + apply Hgood; try reflexivity;
        (eexists; split; [vm_compute; reflexivity | vm_compute; discriminate]).
Defined.

(** ** Timeout and return *)

Lemma setTime_found e k sn (body : record) w i (r : record) :
  list_find (has_serial sn) (stored k w) = Some (i, r) →
  writeFile_fault e (collection_path k) = None →
  setTime e k sn body w
  = (Updated (assign (timeField k) (body !! timeField k) r),
     set_collection_file k
       (<[i := assign (timeField k) (body !! timeField k) r]> (stored k w))
       (add_log (loadLog k w) w)).
Proof.
  intros Hfind Hok.
  unfold setTime, handler, setTimeBody, mbind, io_bind.
  destruct k; by rewrite load_run, Hfind, save_ok.
Qed.

Lemma assign_lookup key v (r : record) : assign key v r !! key = v.
Proof. unfold assign. by rewrite lookup_partial_alter_eq. Qed.

Lemma assign_lookup_ne key v (r : record) f :
  f ≠ key → assign key v r !! f = r !! f.
Proof. intros Hf. unfold assign. by rewrite lookup_partial_alter_ne. Qed.

Lemma collection_file_set_other k k' rs w :
  k' ≠ k → collection_file k' (set_collection_file k rs w) = collection_file k' w.
Proof. by destruct k, k'. Qed.

(** C7. A timeout (visitor) or return (key) on an existing serial number,
    without a storage fault, answers the matching record with its
    property ["timeOut"] (visitor), respectively ["timeReturned"] (key),
    set to the value the request carries under that same name; every
    other property of that record, every other record of the collection,
    the other collection and the photo files are as before. *)
Theorem set_time_changes_one_field e k sn (body : record) w :
  Some (VStr sn) ∈ field "serialNumber" (stored k w) →
  writeFile_fault e (collection_path k) = None →
  ∃ i (r r' : record) w',
    stored k w !! i = Some r ∧ has_serial sn r
    ∧ (∀ j (r0 : record), stored k w !! j = Some r0 → j < i → ¬ has_serial sn r0)
    ∧ setTime e k sn body w = (Updated r', w')
    ∧ match k with
      | Visitor =>
          r' !! "timeOut" = body !! "timeOut"
          ∧ (∀ f, f ≠ "timeOut" → r' !! f = r !! f)
      | Key =>
          r' !! "timeReturned" = body !! "timeReturned"
          ∧ (∀ f, f ≠ "timeReturned" → r' !! f = r !! f)
      end
    ∧ stored k w' = <[i := r']> (stored k w)
    ∧ (∀ j, j ≠ i → stored k w' !! j = stored k w !! j)
    ∧ length (stored k w') = length (stored k w)
    ∧ (∀ k', k' ≠ k → collection_file k' w' = collection_file k' w)
    ∧ photos w' = photos w.
Proof.
  intros Hin Hok.
  destruct (list_find (has_serial sn) (stored k w)) as [[i r]|] eqn:Hfind.
  - pose proof Hfind as (Hi & Hr & Hfirst)%list_find_Some.
    exists i, r. eexists _, _.
    split; [done|]. split; [done|]. split; [exact Hfirst|].
    split; [by apply setTime_found|].
    split.
    { destruct k; (split; [apply assign_lookup|]);
        intros f Hf; by apply assign_lookup_ne. }
    rewrite stored_set_collection_file.
    split; [done|].
    split; [intros j Hj; by apply list_lookup_insert_ne|].
    split; [apply length_insert|].
    split; [|by rewrite photos_set_collection_file].
    intros k' Hk'. rewrite collection_file_set_other by done.
    apply collection_file_add_log.
  - exfalso. unfold field in Hin.
    apply list_elem_of_fmap in Hin as (r & Hr & Hin).
    eapply list_find_None in Hfind. rewrite Forall_forall in Hfind.
    by apply (Hfind r).
Qed.

Lemma set_time_changes_one_field_witness :
  (∃ i (r r' : record) w',
    stored Visitor Sample.threeVisitors !! i = Some r ∧ has_serial "0002" r
    ∧ timeout Sample.quietEnv "0002" {["timeOut" := VStr "17:45"]}
        Sample.threeVisitors = (Updated r', w')
    ∧ r' !! "timeOut" = Some (VStr "17:45")
    ∧ (∀ f, f ≠ "timeOut" → r' !! f = r !! f)
    ∧ stored Visitor w' = <[i := r']> (stored Visitor Sample.threeVisitors)
    ∧ photos w' = photos Sample.threeVisitors)
  ∧ (∃ i (r r' : record) w',
    stored Key Sample.twoKeys !! i = Some r ∧ has_serial "0002" r
    ∧ r !! "timeReturned" = None
    ∧ keyReturn Sample.quietEnv "0002" {["timeReturned" := VStr "18:10"]}
        Sample.twoKeys = (Updated r', w')
    ∧ r' !! "timeReturned" = Some (VStr "18:10")
    ∧ (∀ f, f ≠ "timeReturned" → r' !! f = r !! f)
    ∧ stored Key w' = <[i := r']> (stored Key Sample.twoKeys)
    ∧ visitors_file w' = visitors_file Sample.twoKeys
    ∧ photos w' = photos Sample.twoKeys).
Proof.
  split.
  - destruct (set_time_changes_one_field Sample.quietEnv Visitor "0002"
                {["timeOut" := VStr "17:45"]} Sample.threeVisitors)
      as (i & r & r' & w' & H1 & H2 & _ & H4 & [H5 H6] & H7 & _ & _ & _ & H8).
    + apply (bool_decide_unpack _). vm_compute. exact I.
    + reflexivity.
    + exists i, r, r', w'.
      split; [exact H1|]. split; [exact H2|]. split; [exact H4|].
      split; [etrans; [exact H5 | vm_compute; reflexivity]|].
      split; [exact H6|]. split; [exact H7 | exact H8].
  - destruct (set_time_changes_one_field Sample.quietEnv Key "0002"
                {["timeReturned" := VStr "18:10"]} Sample.twoKeys)
      as (i & r & r' & w' & H1 & H2 & H3 & H4 & [H5 H6] & H7 & _ & _ & H9 & H8).
    + apply (bool_decide_unpack _). vm_compute. exact I.
    + reflexivity.
    + exists i, r, r', w'.
      split; [exact H1|]. split; [exact H2|].
      split.
      { assert (Hall : Forall (λ r0 : record,
                  has_serial "0002" r0 → r0 !! "timeReturned" = None)
                  (stored Key Sample.twoKeys))
          by (apply (bool_decide_unpack _); vm_compute; exact I).
        rewrite Forall_lookup in Hall. exact (Hall i r H1 H2). }
      split; [exact H4|].
      split; [etrans; [exact H5 | vm_compute; reflexivity]|].
      split; [exact H6|]. split; [exact H7|].
      split; [exact (H9 Visitor ltac:(discriminate)) | exact H8].
Defined.

(** ** Stats *)

Lemma countActive_filter keys :
  length (List.filter (λ k : record, negb (truthy (k !! "timeReturned"))) keys)
  = countActive keys.
Proof.
  induction keys as [|k keys IH]; [done|]. simpl. unfold lacksTimeReturned.
  destruct (negb (truthy (k !! "timeReturned"))); simpl; by rewrite IH.
Qed.

(** The values that count as no return time. *)
Lemma lacksTimeReturned_iff (k : record) :
  lacksTimeReturned k = true
  ↔ k !! "timeReturned" = None ∨ k !! "timeReturned" = Some VNull
    ∨ k !! "timeReturned" = Some (VBool false)
    ∨ k !! "timeReturned" = Some (VNum 0)
    ∨ k !! "timeReturned" = Some (VStr "").
Proof.
  unfold lacksTimeReturned.
  destruct (k !! "timeReturned") as [[| b | n | s |]|] eqn:E; simpl.
  - intuition congruence.
  - destruct b; simpl; intuition congruence.
  - destruct (Z.eqb_spec n 0) as [->|Hn]; simpl; intuition congruence.
  - destruct (String.eqb_spec s "") as [->|Hs]; simpl; intuition congruence.
  - intuition congruence.
  - intuition congruence.
Qed.

(** C9. The stats route answers the length of the visitor collection as
    [totalVisitors] and, as [activeKeys], the number of key records whose
    [timeReturned] is absent (or holds no value: null, false, 0 or the
    empty string); it writes no file. *)
Theorem stats_counts_visitors_and_active_keys w :
  fst (stats w)
  = StatsOf (length (stored Visitor w)) (countActive (stored Key w))
  ∧ (∀ k : record, k !! "timeReturned" = None → lacksTimeReturned k = true)
  ∧ (∀ (k : record) s, k !! "timeReturned" = Some (VStr s) → s ≠ "" →
                       lacksTimeReturned k = false)
  ∧ visitors_file (snd (stats w)) = visitors_file w
  ∧ keys_file (snd (stats w)) = keys_file w
  ∧ photos (snd (stats w)) = photos w.
Proof.
  assert (Hrun : stats w
                 = (StatsOf (length (stored Visitor w)) (countActive (stored Key w)),
                    add_log (loadLog Visitor w ++ loadLog Key w) w)).
  { unfold stats, handler, statsBody, loadVisitors, loadKeys, mbind, io_bind.
    rewrite !load_run. unfold mret, io_ret.
    rewrite countActive_filter, add_log_add_log.
    unfold stored at 3, loadLog at 3. by rewrite collection_file_add_log. }
  rewrite Hrun. repeat split; try done.
  - intros k Hk. unfold lacksTimeReturned. by rewrite Hk.
  - intros k s Hk Hs. unfold lacksTimeReturned. rewrite Hk. simpl.
    apply negb_false_iff, negb_true_iff. by apply String.eqb_neq.
Qed.

(** ** What the pattern accepts *)

Lemma test_nil s : test [] s = true ↔ s = "".
Proof. destruct s; simpl; split; congruence. Qed.

Lemma test_app p q : ∀ s,
  test (p ++ q) s = true
  ↔ ∃ s1 s2, s = s1 +:+ s2 ∧ test p s1 = true ∧ test q s2 = true.
Proof.
  induction p as [|a p IH]; intros s.
  - split.
    + intros H. by exists "", s.
    + intros (s1 & s2 & -> & ->%test_nil & H). done.
  - destruct s as [|c s].
    + split; [done|]. intros (s1 & s2 & Hs & H1 & _).
      destruct s1; [done | discriminate].
    + change (test ((a :: p) ++ q) (String c s))
        with (atom_matches a c && test (p ++ q) s).
      rewrite andb_true_iff, IH. split.
      * intros (Ha & s1 & s2 & -> & H1 & H2).
        exists (String c s1), s2. split; [done|]. split; [|done].
        simpl. by rewrite Ha, H1.
      * intros (s1 & s2 & Hs & H1 & H2). destruct s1 as [|c' s1]; [done|].
        injection Hs as -> ->. simpl in H1.
        apply andb_true_iff in H1 as [Ha H1]. eauto 10.
Qed.

Lemma test_lits l s : test (lits l) s = true ↔ s = l.
Proof.
  unfold lits. revert s. induction l as [|c l IH]; intros s; [apply test_nil|].
  destruct s as [|c' s]; [done|].
  change (test (Lit <$> list_ascii_of_string (String c l)) (String c' s))
    with (Ascii.eqb c c' && test (Lit <$> list_ascii_of_string l) s).
  rewrite andb_true_iff, IH, Ascii.eqb_eq. split.
  - by intros [-> ->].
  - by intros [= -> ->].
Qed.

Lemma test_digits n : ∀ s, test (replicate n Digit) s = true ↔ digits n s.
Proof.
  unfold digits. induction n as [|n IH]; intros s.
  - rewrite test_nil. destruct s; simpl; split; try done. by intros [[=] _].
  - destruct s as [|c s]; [simpl; split; [done | by intros [[=] _]]|].
    change (test (replicate (S n) Digit) (String c s))
      with (is_digit c && test (replicate n Digit) s).
    rewrite andb_true_iff, IH. simpl. rewrite andb_true_iff. split.
    + intros (Hc & <- & Hs). done.
    + intros ([= <-] & Hc & Hs). done.
Qed.

(** The strings that [/^784-\d{4}-\d{7}-\d$/] accepts are those of the
    shape 784-DDDD-DDDDDDD-D. *)
Lemma idPattern_accepts s :
  test idPattern s = true
  ↔ ∃ a b c, s = "784-" +:+ a +:+ "-" +:+ b +:+ "-" +:+ c
             ∧ digits 4 a ∧ digits 7 b ∧ digits 1 c.
Proof.
  unfold idPattern. rewrite test_app. split.
  - intros (s1 & t1 & -> & ->%test_lits & H).
    apply test_app in H as (a & t2 & -> & Ha%test_digits & H).
    apply test_app in H as (s2 & t3 & -> & ->%test_lits & H).
    apply test_app in H as (b & t4 & -> & Hb%test_digits & H).
    apply test_app in H as (s3 & c & -> & ->%test_lits & Hc).
    exists a, b, c. split; [done|]. split; [done|]. split; [done|].
    by apply (test_digits 1).
  - intros (a & b & c & -> & Ha & Hb & Hc).
    exists "784-", (a +:+ "-" +:+ b +:+ "-" +:+ c).
    split; [done|]. split; [by apply test_lits|].
    apply test_app. exists a, ("-" +:+ b +:+ "-" +:+ c).
    split; [done|]. split; [by apply test_digits|].
    apply test_app. exists "-", (b +:+ "-" +:+ c).
    split; [done|]. split; [by apply test_lits|].
    apply test_app. exists b, ("-" +:+ c).
    split; [done|]. split; [by apply test_digits|].
    apply test_app. exists "-", c.
    split; [done|]. split; [by apply test_lits|]. by apply (test_digits 1).
Qed.

(** ** Photo files *)

(** Delete with adjustment never changes the photo directory: each
    [fs.existsSync] call throws before an unlink or a rename is reached. *)
Lemma deleteAdjust_photos e k sn w : photos (snd (deleteAdjust e k sn w)) = photos w.
Proof.
  unfold deleteAdjust, handler, deleteAdjustBody, mbind, io_bind.
  destruct k; rewrite load_run;
    (destruct (list_find (has_serial sn) _) as [[i r]|]; [|done]);
    rewrite deletePhotos_run, renumberFrom_run;
    match goal with
    | |- context [save e ?k ?rs ?w0] =>
        destruct (writeFile_fault e (collection_path k)) as [msg|] eqn:Hsave;
        [rewrite (save_fault e k rs w0 msg Hsave)
        |rewrite (save_ok e k rs w0 Hsave)]
    end; done.
Qed.

(** When the second photo write of a create fails, the first photo stays
    on disk and the collection is not written. *)
Lemma create_back_fault e k (body : record) w front back msg :
  validate k body = Return true →
  body !! "frontPhoto" = Some (VStr front) →
  body !! "backPhoto" = Some (VStr back) →
  writeFile_fault e (photoPath k (serialOf (length (stored k w) + 1)) "front") = None →
  writeFile_fault e (photoPath k (serialOf (length (stored k w) + 1)) "back") = Some msg →
  ∃ w', create e k body w = (BadRequest (or_else msg (createFailure k)), w')
        ∧ visitors_file w' = visitors_file w ∧ keys_file w' = keys_file w
        ∧ photos w'
          = <[photoPath k (serialOf (length (stored k w) + 1)) "front"
              := strip_data_uri front]> (photos w).
Proof.
  intros Hv Hfront Hback Hw1 Hw2. eexists.
  unfold create, handler. rewrite createBody_run, Hv.
  unfold createAfterLoad. rewrite Hfront, Hback, Hw1, Hw2. done.
Qed.

(** C2, at the scenario of the claim.  After three creates and the
    delete-with-adjust of [0002] the collection holds the records of
    Alice and Carol under [0001] and [0002], and Carol's photo references
    name [0002]; but no file was renamed or deleted: Carol's photos are
    still under [0003] and the files under [0002] are those of the
    deleted record, because each call of [fs.existsSync] threw. *)
Theorem adjust_scenario_leaves_photo_files :
  fst (deleteAdjust Sample.quietEnv Visitor "0002" Sample.threeVisitors)
  = Adjusted "Visitor deleted and serial numbers adjusted" 2
  ∧ field "serialNumber"
      (stored Visitor (snd (deleteAdjust Sample.quietEnv Visitor "0002"
                              Sample.threeVisitors)))
    = [Some (VStr "0001"); Some (VStr "0002")]
  ∧ field "name"
      (stored Visitor (snd (deleteAdjust Sample.quietEnv Visitor "0002"
                              Sample.threeVisitors)))
    = [Some (VStr "Alice"); Some (VStr "Carol")]
  ∧ field "frontPhoto"
      (stored Visitor (snd (deleteAdjust Sample.quietEnv Visitor "0002"
                              Sample.threeVisitors)))
    = [Some (VStr "/photos/0001_front.jpg"); Some (VStr "/photos/0002_front.jpg")]
  ∧ map_to_list (photos (snd (deleteAdjust Sample.quietEnv Visitor "0002"
                                Sample.threeVisitors)))
    ≡ₚ [("data/photos/0001_front.jpg", "front-of-Alice");
        ("data/photos/0001_back.jpg", "back-of-Alice");
        ("data/photos/0002_front.jpg", "front-of-Bob");
        ("data/photos/0002_back.jpg", "back-of-Bob");
        ("data/photos/0003_front.jpg", "front-of-Carol");
        ("data/photos/0003_back.jpg", "back-of-Carol")]
  ∧ log (snd (deleteAdjust Sample.quietEnv Visitor "0002" Sample.threeVisitors))
    = [("Error deleting photos:", TypeError "fs.existsSync is not a function");
       ("Error renaming photos for visitor 0001:",
        TypeError "fs.existsSync is not a function");
       ("Error renaming photos for visitor 0003:",
        TypeError "fs.existsSync is not a function")].
Proof.
  repeat split; try (vm_compute; reflexivity).
  rewrite deleteAdjust_photos.
  apply (bool_decide_unpack _). vm_compute. exact I.
Qed.

(** C8, at a create whose second photo write fails.  The create answers
    400 and appends no record, but the front photo that was already
    written stays in the photo directory: nothing deletes it. *)
Theorem create_keeps_front_photo_after_back_fault :
  fst (create Sample.backPhotoFaultEnv Visitor (Sample.visitorForm "Alice")
         Sample.emptyWorld)
  = BadRequest "ENOSPC: no space left on device, write"
  ∧ stored Visitor (snd (create Sample.backPhotoFaultEnv Visitor
                           (Sample.visitorForm "Alice") Sample.emptyWorld)) = []
  ∧ map_to_list (photos (snd (create Sample.backPhotoFaultEnv Visitor
                                (Sample.visitorForm "Alice") Sample.emptyWorld)))
    = [("data/photos/0001_front.jpg", "front-of-Alice")].
Proof. repeat split; vm_compute; reflexivity. Qed.

(** * Further properties of the routes *)

(** ** What each route can do to the collections *)

Lemma stored_eq k w w' :
  collection_file k w' = collection_file k w → stored k w' = stored k w.
Proof. unfold stored. by intros ->. Qed.

Lemma collection_file_set_photos k ph w :
  collection_file k (set_photos ph w) = collection_file k w.
Proof. by destruct k. Qed.

Lemma collection_file_set_same k rs w :
  collection_file k (set_collection_file k rs w) = Some rs.
Proof. by destruct k. Qed.

Lemma createAfterLoad_cases e k (body : record) rs w0 :
  (∃ err w1, createAfterLoad e k body rs w0 = (Throw err, w1)
             ∧ ∀ k', collection_file k' w1 = collection_file k' w0)
  ∨ (∃ front back,
       body !! "frontPhoto" = Some (VStr front)
       ∧ body !! "backPhoto" = Some (VStr back)
       ∧ writeFile_fault e (photoPath k (serialOf (length rs + 1)) "front") = None
       ∧ writeFile_fault e (photoPath k (serialOf (length rs + 1)) "back") = None
       ∧ writeFile_fault e (collection_path k) = None
       ∧ createAfterLoad e k body rs w0
         = (Return (Created (createdMessage k) (createdRecord e k (length rs) body)),
            set_collection_file k (rs ++ [createdRecord e k (length rs) body])
              (set_photos
                 (<[photoPath k (serialOf (length rs + 1)) "back" := strip_data_uri back]>
                    (<[photoPath k (serialOf (length rs + 1)) "front"
                       := strip_data_uri front]> (photos w0))) w0))).
Proof.
  unfold createAfterLoad.
  destruct (body !! "frontPhoto") as [[| | | front |]|];
    destruct (body !! "backPhoto") as [[| | | back |]|];
    try (left; eexists _, _; split; [reflexivity | done]).
  destruct (writeFile_fault e (photoPath k _ "front")) eqn:H1;
    [left; eexists _, _; split; [reflexivity | done]|].
  destruct (writeFile_fault e (photoPath k _ "back")) eqn:H2;
    [left; eexists _, _; split; [reflexivity | intros k'; by destruct k']|].
  destruct (writeFile_fault e (collection_path k)) eqn:H3.
  - left. eexists _, _. split; [reflexivity | intros k'; by destruct k'].
  - right. exists front, back. repeat (split; [done|]). by destruct w0.
Qed.

(** Every create either answers 400 and leaves both collection files as
    they were, or answers 201, appends one record to its own collection
    and writes the two photo files. *)
Lemma create_cases e k (body : record) w :
  (∃ msg w', create e k body w = (BadRequest msg, w')
             ∧ ∀ k', collection_file k' w' = collection_file k' w)
  ∨ (∃ front back w',
       create e k body w
       = (Created (createdMessage k)
            (createdRecord e k (length (stored k w)) body), w')
       ∧ validate k body = Return true
       ∧ body !! "frontPhoto" = Some (VStr front)
       ∧ body !! "backPhoto" = Some (VStr back)
       ∧ collection_file k w'
         = Some (stored k w ++ [createdRecord e k (length (stored k w)) body])
       ∧ (∀ k', k' ≠ k → collection_file k' w' = collection_file k' w)
       ∧ photos w'
         = <[photoPath k (serialOf (length (stored k w) + 1)) "back"
             := strip_data_uri back]>
             (<[photoPath k (serialOf (length (stored k w) + 1)) "front"
                := strip_data_uri front]> (photos w))).
Proof.
  unfold create, handler. rewrite createBody_run.
  destruct (validate k body) as [ok|err] eqn:Hv.
  - destruct (createAfterLoad_cases e k body (stored k w) (add_log (loadLog k w) w))
      as [(err & w1 & -> & Hsame) | (front & back & Hf & Hb & _ & _ & _ & ->)].
    + left. eexists _, _. split; [reflexivity|]. intros k'. simpl.
      by rewrite collection_file_add_log, Hsame, collection_file_add_log.
    + right. exists front, back. eexists. split; [reflexivity|].
      split.
      { revert Hv. rewrite validate_spec.
        destruct (negb (forallb _ _)); [done|]. destruct (missing k body); [|done].
        destruct (negb (idNumber_conforms body)); [done|].
        destruct (_ || _); congruence. }
      split; [done|]. split; [done|].
      split; [apply collection_file_set_same|].
      split; [|by rewrite photos_set_collection_file].
      intros k' Hk'. rewrite collection_file_set_other by done.
      by rewrite collection_file_set_photos, collection_file_add_log.
  - left. eexists _, _. split; [reflexivity|]. intros k'.
    apply collection_file_add_log.
Qed.

(** Every timeout or return leaves the collections as they were or
    replaces one record of its own collection by that record with the time
    property assigned. *)
Lemma setTime_cases e k sn (body : record) w :
  (∀ k', collection_file k' (snd (setTime e k sn body w)) = collection_file k' w)
  ∨ (∃ i (r : record),
       stored k w !! i = Some r
       ∧ collection_file k (snd (setTime e k sn body w))
         = Some (<[i := assign (timeField k) (body !! timeField k) r]> (stored k w))
       ∧ ∀ k', k' ≠ k →
               collection_file k' (snd (setTime e k sn body w)) = collection_file k' w).
Proof.
  destruct (list_find (has_serial sn) (stored k w)) as [[i r]|] eqn:Hfind.
  - destruct (writeFile_fault e (collection_path k)) as [msg|] eqn:Hsave.
    + left. intros k'.
      unfold setTime, handler, setTimeBody, mbind, io_bind.
      destruct k; rewrite load_run, Hfind, (save_fault _ _ _ _ msg Hsave); simpl;
        by destruct k'.
    + right. exists i, r. rewrite (setTime_found _ _ _ _ _ _ _ Hfind Hsave). simpl.
      apply list_find_Some in Hfind as (Hi & _).
      split; [done|]. split; [apply collection_file_set_same|].
      intros k' Hk'. rewrite collection_file_set_other by done.
      apply collection_file_add_log.
  - left. intros k'.
    unfold setTime, handler, setTimeBody, mbind, io_bind.
    destruct k; rewrite load_run, Hfind; simpl; apply collection_file_add_log.
Qed.

(** Every delete with adjustment leaves the collections as they were or
    replaces its own collection by the renumbered rest. *)
Lemma deleteAdjust_cases e k sn w :
  (∀ k', collection_file k' (snd (deleteAdjust e k sn w)) = collection_file k' w)
  ∨ (∃ i, collection_file k (snd (deleteAdjust e k sn w))
          = Some (renumbered k 0 (delete i (stored k w)))
          ∧ ∀ k', k' ≠ k →
                  collection_file k' (snd (deleteAdjust e k sn w))
                  = collection_file k' w).
Proof.
  destruct (list_find (has_serial sn) (stored k w)) as [[i r]|] eqn:Hfind.
  - destruct (writeFile_fault e (collection_path k)) as [msg|] eqn:Hsave.
    + left. intros k'.
      unfold deleteAdjust, handler, deleteAdjustBody, mbind, io_bind.
      destruct k;
        rewrite load_run, Hfind, deletePhotos_run, renumberFrom_run,
          (save_fault _ _ _ _ msg Hsave); simpl; by destruct k'.
    + right. exists i. rewrite (deleteAdjust_found _ _ _ _ _ _ Hfind Hsave). simpl.
      split; [apply collection_file_set_same|].
      intros k' Hk'. rewrite collection_file_set_other by done.
      apply collection_file_add_log.
  - left. intros k'. rewrite (deleteAdjust_absent _ _ _ _ Hfind). simpl.
    apply collection_file_add_log.
Qed.

Lemma stats_collections w k' :
  collection_file k' (snd (stats w)) = collection_file k' w.
Proof.
  unfold stats, handler, statsBody, loadVisitors, loadKeys, mbind, io_bind.
  rewrite !load_run. simpl. by destruct k'.
Qed.

Lemma listAll_run k w : listAll k w = (Listing (stored k w), add_log (loadLog k w) w).
Proof. unfold listAll, handler, listBody, mbind, io_bind. by rewrite load_run. Qed.

(** ** Dense serial numbers as an invariant *)

Lemma dense_snoc e k (body : record) rs :
  dense rs → dense (rs ++ [createdRecord e k (length rs) body]).
Proof.
  unfold dense, field. intros Hd.
  rewrite fmap_app, length_app, Hd. simpl.
  rewrite createdRecord_serial, seq_app, fmap_app. simpl.
  by replace (length rs + 1) with (1 + length rs) by lia.
Qed.

Lemma dense_insert rs i (r r' : record) :
  dense rs → rs !! i = Some r →
  r' !! "serialNumber" = r !! "serialNumber" →
  dense (<[i := r']> rs).
Proof.
  unfold dense, field. intros Hd Hi Hs.
  rewrite list_fmap_insert, length_insert, Hs, <- Hd.
  apply list_insert_id. by rewrite list_lookup_fmap, Hi.
Qed.

Lemma timeField_not_serial k : "serialNumber" ≠ timeField k.
Proof. by destruct k. Qed.

Lemma dense_stored_eq k w w' :
  collection_file k w' = collection_file k w → dense (stored k w) → dense (stored k w').
Proof. intros H. by rewrite (stored_eq _ _ _ H). Qed.

Lemma stored_of_file k w rs : collection_file k w = Some rs → stored k w = rs.
Proof. unfold stored. by intros ->. Qed.

Lemma kind_eq_or (k k' : kind) : k' = k ∨ k' ≠ k.
Proof. destruct k, k'; (by left) || by right. Qed.

Lemma create_dense e k (body : record) w k' :
  dense (stored k' w) → dense (stored k' (snd (create e k body w))).
Proof.
  intros Hd.
  destruct (create_cases e k body w)
    as [(msg & w' & -> & Hsame) | (f & b & w' & -> & _ & _ & _ & Hown & Hother & _)];
    simpl.
  - by apply (dense_stored_eq _ _ _ (Hsame k')).
  - destruct (kind_eq_or k k') as [->|Hne].
    + rewrite (stored_of_file _ _ _ Hown). by apply dense_snoc.
    + by apply (dense_stored_eq _ _ _ (Hother k' Hne)).
Qed.

Lemma setTime_dense e k sn (body : record) w k' :
  dense (stored k' w) → dense (stored k' (snd (setTime e k sn body w))).
Proof.
  intros Hd.
  destruct (setTime_cases e k sn body w) as [Hsame | (i & r & Hi & Hown & Hother)].
  - by apply (dense_stored_eq _ _ _ (Hsame k')).
  - destruct (kind_eq_or k k') as [->|Hne].
    + rewrite (stored_of_file _ _ _ Hown). eapply dense_insert; [done | done |].
      apply assign_lookup_ne, timeField_not_serial.
    + by apply (dense_stored_eq _ _ _ (Hother k' Hne)).
Qed.

Lemma deleteAdjust_dense e k sn w k' :
  dense (stored k' w) → dense (stored k' (snd (deleteAdjust e k sn w))).
Proof.
  intros Hd.
  destruct (deleteAdjust_cases e k sn w) as [Hsame | (i & Hown & Hother)].
  - by apply (dense_stored_eq _ _ _ (Hsame k')).
  - destruct (kind_eq_or k k') as [->|Hne].
    + rewrite (stored_of_file _ _ _ Hown). apply dense_renumbered.
    + by apply (dense_stored_eq _ _ _ (Hother k' Hne)).
Qed.

Lemma serve_dense e req w k' :
  isPlainDelete req = false →
  dense (stored k' w) → dense (stored k' (snd (serve e req w))).
Proof.
  intros Hreq Hd. destruct req; try discriminate Hreq;
    unfold serve, answer, timeout, keyReturn; cbn [snd].
  - rewrite listAll_run. simpl. apply (dense_stored_eq _ w); [|done].
    apply collection_file_add_log.
  - by apply create_dense.
  - by apply setTime_dense.
  - by apply deleteAdjust_dense.
  - by apply (dense_stored_eq _ _ _ (stats_collections w k')).
  - rewrite listAll_run. simpl. apply (dense_stored_eq _ w); [|done].
    apply collection_file_add_log.
  - by apply create_dense.
  - by apply deleteAdjust_dense.
  - by apply setTime_dense.
Qed.

(** X1. Whatever requests are served, under whatever write faults, as long
    as none of them is the plain (non-adjusting) visitor delete, a store
    whose two collections have serial numbers [0001..N] in list order
    keeps them so. *)
Theorem dense_is_invariant reqs : ∀ w,
  Forall (λ p : env * request, isPlainDelete p.2 = false) reqs →
  dense (stored Visitor w) → dense (stored Key w) →
  dense (stored Visitor (serveAll reqs w)) ∧ dense (stored Key (serveAll reqs w)).
Proof.
  induction reqs as [|[e req] reqs IH]; intros w Hreqs Hv Hk; [done|].
  apply Forall_cons in Hreqs as [Hreq Hreqs]. simpl.
  apply IH; [done | |]; by apply serve_dense.
Qed.

Lemma dense_is_invariant_witness :
  dense (stored Visitor (serveAll Scenario.mixedRequests Sample.emptyWorld))
  ∧ dense (stored Key (serveAll Scenario.mixedRequests Sample.emptyWorld)).
Proof.
  apply dense_is_invariant.
  - repeat constructor.
  - reflexivity.
  - reflexivity.
Defined.

(** ** The plain delete *)

Lemma photoPath_front_back k sn : photoPath k sn "front" ≠ photoPath k sn "back".
Proof.
  unfold photoPath, path_join, photoName. intros H.
  apply (inj (String.app _)) in H. apply (inj (String.app _)) in H.
  destruct k; repeat (apply (inj (String.app _)) in H); discriminate.
Qed.

Lemma unlinkPhotos_run front back handlerText w :
  front ≠ back →
  ∃ l, try_catch (_ ← fs_unlink front; fs_unlink back)
         (λ err, logger_error handlerText err) w
       = (Return (), set_photos (afterUnlinks front back (photos w)) (add_log l w)).
Proof.
  intros Hne. unfold try_catch, mbind, io_bind, fs_unlink, afterUnlinks.
  destruct (photos w !! front) as [f|] eqn:Hf.
  - simpl. rewrite lookup_delete_ne by done.
    destruct (photos w !! back) as [b|] eqn:Hb.
    + exists []. rewrite add_log_nil. by destruct w.
    + eexists [_]. simpl. rewrite (delete_id (delete front (photos w)) back); [done|].
      by rewrite lookup_delete_ne.
  - eexists [_]. simpl. unfold set_photos, add_log. by destruct w.
Qed.

Lemma deleteVisitor_absent e sn w :
  list_find (has_serial sn) (stored Visitor w) = None →
  deleteVisitor e sn w
  = (Answer (NotFound "Visitor not found"), add_log (loadLog Visitor w) w).
Proof.
  intros Hfind.
  unfold deleteVisitor, handler, deleteVisitorBody, loadVisitors, mbind, io_bind.
  by rewrite load_run, Hfind.
Qed.

Lemma deleteVisitor_found e sn w i (r : record) :
  list_find (has_serial sn) (stored Visitor w) = Some (i, r) →
  ∃ l,
    deleteVisitor e sn w
    = match writeFile_fault e VISITORS_FILE with
      | None =>
          (Message "Visitor deleted successfully",
           set_collection_file Visitor (delete i (stored Visitor w))
             (set_photos
                (afterUnlinks (photoPath Visitor sn "front")
                   (photoPath Visitor sn "back") (photos w))
                (add_log l w)))
      | Some msg =>
          (Answer (Failed "Failed to delete visitor" None),
           add_log [("Error saving visitors:", SystemError msg);
                    ("Error deleting visitor:", SystemError msg)]
             (set_photos
                (afterUnlinks (photoPath Visitor sn "front")
                   (photoPath Visitor sn "back") (photos w))
                (add_log l w)))
      end.
Proof.
  intros Hfind.
  destruct (unlinkPhotos_run (photoPath Visitor sn "front")
              (photoPath Visitor sn "back") "Error deleting photos:"
              (add_log (loadLog Visitor w) w) (photoPath_front_back _ _))
    as (l & Hl).
  exists (loadLog Visitor w ++ l).
  unfold deleteVisitor, handler, deleteVisitorBody, loadVisitors, saveVisitors,
    mbind, io_bind in *.
  rewrite load_run, Hfind, Hl, add_log_add_log. simpl photos.
  destruct (writeFile_fault e VISITORS_FILE) as [msg|] eqn:Hsave.
  - rewrite (save_fault e Visitor _ _ msg Hsave). simpl.
    by rewrite add_log_add_log.
  - by rewrite (save_ok e Visitor _ _ Hsave).
Qed.

(** X2. The plain visitor delete of an existing serial number, without a
    storage fault, removes the first record that carries it and leaves the
    other records as they are, serial numbers included (no renumbering).
    When the front photo of that serial number is on disk, both photo
    files of the serial number are gone afterwards and no other file
    changes; when the front photo is missing, the photo directory is left
    as it was, a back photo included. *)
Theorem plain_delete_removes_without_renumbering e sn w :
  Some (VStr sn) ∈ field "serialNumber" (stored Visitor w) →
  writeFile_fault e VISITORS_FILE = None →
  ∃ i (r : record) w',
    stored Visitor w !! i = Some r ∧ has_serial sn r
    ∧ (∀ j (r0 : record), stored Visitor w !! j = Some r0 → j < i → ¬ has_serial sn r0)
    ∧ deleteVisitor e sn w = (Message "Visitor deleted successfully", w')
    ∧ stored Visitor w' = delete i (stored Visitor w)
    ∧ keys_file w' = keys_file w
    ∧ (is_Some (photos w !! photoPath Visitor sn "front") →
       photos w' !! photoPath Visitor sn "front" = None
       ∧ photos w' !! photoPath Visitor sn "back" = None
       ∧ ∀ path, path ≠ photoPath Visitor sn "front" →
                 path ≠ photoPath Visitor sn "back" →
                 photos w' !! path = photos w !! path)
    ∧ (photos w !! photoPath Visitor sn "front" = None → photos w' = photos w).
Proof.
  intros Hin Hok.
  destruct (list_find (has_serial sn) (stored Visitor w)) as [[i r]|] eqn:Hfind.
  - pose proof Hfind as (Hi & Hr & Hfirst)%list_find_Some.
    destruct (deleteVisitor_found e sn w i r Hfind) as (l & Hrun).
    rewrite Hok in Hrun. exists i, r. eexists.
    split; [done|]. split; [done|]. split; [exact Hfirst|].
    split; [exact Hrun|]. split; [done|]. split; [done|].
    simpl. unfold afterUnlinks. split.
    + intros [f Hf]. rewrite Hf.
      split; [rewrite lookup_delete_ne by apply not_eq_sym, photoPath_front_back;
              apply lookup_delete_eq|].
      split; [apply lookup_delete_eq|].
      intros path H1 H2. by rewrite !lookup_delete_ne.
    + by intros ->.
  - exfalso. unfold field in Hin.
    apply list_elem_of_fmap in Hin as (r & Hr & Hin).
    eapply list_find_None in Hfind. rewrite Forall_forall in Hfind.
    by apply (Hfind r).
Qed.

Lemma plain_delete_removes_without_renumbering_witness :
  ∃ i (r : record) w',
    stored Visitor Sample.threeVisitors !! i = Some r ∧ has_serial "0002" r
    ∧ deleteVisitor Sample.quietEnv "0002" Sample.threeVisitors
      = (Message "Visitor deleted successfully", w')
    ∧ stored Visitor w' = delete i (stored Visitor Sample.threeVisitors)
    ∧ photos w' !! "data/photos/0002_front.jpg" = None
    ∧ photos w' !! "data/photos/0002_back.jpg" = None.
Proof.
  destruct (plain_delete_removes_without_renumbering Sample.quietEnv "0002"
              Sample.threeVisitors)
    as (i & r & w' & H1 & H2 & _ & H4 & H5 & _ & H7 & _).
  - apply (bool_decide_unpack _). vm_compute. exact I.
  - reflexivity.
  - exists i, r, w'. split; [exact H1|]. split; [exact H2|]. split; [exact H4|].
    split; [exact H5|].
    destruct H7 as (H8 & H9 & _); [|split; [exact H8 | exact H9]].
    vm_compute. eauto.
Defined.

(** X3. The plain visitor delete of a serial number that no record carries
    answers "not found" and writes nothing. *)
Theorem plain_delete_not_found e sn w :
  Some (VStr sn) ∉ field "serialNumber" (stored Visitor w) →
  ∃ w', deleteVisitor e sn w = (Answer (NotFound "Visitor not found"), w')
        ∧ visitors_file w' = visitors_file w ∧ keys_file w' = keys_file w
        ∧ photos w' = photos w.
Proof.
  intros Hnot. eexists. split.
  - apply deleteVisitor_absent, list_find_None, Forall_forall. intros r Hr Hs.
    apply Hnot. unfold field. apply list_elem_of_fmap. by exists r.
  - done.
Qed.

Lemma plain_delete_not_found_witness :
  ∃ w', deleteVisitor Sample.quietEnv "0007" Sample.threeVisitors
        = (Answer (NotFound "Visitor not found"), w')
        ∧ visitors_file w' = visitors_file Sample.threeVisitors
        ∧ keys_file w' = keys_file Sample.threeVisitors
        ∧ photos w' = photos Sample.threeVisitors.
Proof.
  apply plain_delete_not_found.
  apply (bool_decide_unpack _). vm_compute. exact I.
Defined.

Lemma dense_find rs j :
  dense rs → 1 ≤ j ≤ length rs →
  ∃ r : record, rs !! (j - 1) = Some r
                ∧ list_find (has_serial (serialOf j)) rs = Some (j - 1, r).
Proof.
  intros Hd Hj. destruct (lookup_lt_is_Some_2 rs (j - 1)) as [r Hr]; [lia|].
  exists r. split; [done|]. apply list_find_Some.
  pose proof (dense_lookup _ _ _ Hd Hr) as Hs.
  replace (S (j - 1)) with j in Hs by lia.
  split; [done|]. split; [done|].
  intros i y Hi Hlt Hy. unfold has_serial in Hy.
  rewrite (dense_lookup _ _ _ Hd Hi) in Hy.
  assert (serialOf (S i) = serialOf j) as H%serialOf_inj by congruence. lia.
Qed.

(** X4. After the plain delete of a record that is not the last one of a
    dense visitor collection of [N] records, the next successful create
    assigns the serial number [N] again, which the last of the old records
    still carries: two records then share a serial number, and the create
    has written its front photo over the file of that serial number. *)
Theorem plain_delete_then_create_duplicates e1 e2 (body : record) w j msg data w2 :
  dense (stored Visitor w) →
  1 ≤ j < length (stored Visitor w) →
  writeFile_fault e1 VISITORS_FILE = None →
  create e2 Visitor body (snd (deleteVisitor e1 (serialOf j) w))
  = (Created msg data, w2) →
  ∃ (old : record) front,
    stored Visitor w !! (length (stored Visitor w) - 1) = Some old
    ∧ stored Visitor w2 !! (length (stored Visitor w) - 2) = Some old
    ∧ stored Visitor w2 !! (length (stored Visitor w) - 1) = Some data
    ∧ old !! "serialNumber" = Some (VStr (serialOf (length (stored Visitor w))))
    ∧ data !! "serialNumber" = Some (VStr (serialOf (length (stored Visitor w))))
    ∧ body !! "frontPhoto" = Some (VStr front)
    ∧ photos w2 !! photoPath Visitor (serialOf (length (stored Visitor w))) "front"
      = Some (strip_data_uri front).
Proof.
  intros Hd Hj Hok Hrun.
  destruct (dense_find _ j Hd) as (r & Hr & Hfind); [lia|].
  destruct (deleteVisitor_found e1 (serialOf j) w (j - 1) r Hfind) as (l & Hdel).
  rewrite Hok in Hdel. apply (f_equal snd) in Hdel. cbn [snd] in Hdel.
  remember (snd (deleteVisitor e1 (serialOf j) w)) as w1 eqn:Hw1. clear Hw1.
  assert (Hst1 : stored Visitor w1 = delete (j - 1) (stored Visitor w))
    by (rewrite Hdel; apply stored_set_collection_file).
  assert (Hlen1 : length (stored Visitor w1) = length (stored Visitor w) - 1).
  { rewrite Hst1. apply length_delete. eauto. }
  destruct (create_cases e2 Visitor body w1)
    as [(m & w' & Hc & _) | (front & back & w' & Hc & _ & Hf & _ & Hown & _ & Hph)];
    rewrite Hc in Hrun; [done|].
  injection Hrun as _ <- <-.
  destruct (lookup_lt_is_Some_2 (stored Visitor w) (length (stored Visitor w) - 1))
    as [old Hold]; [lia|].
  exists old, front.
  rewrite (stored_of_file _ _ _ Hown), Hlen1.
  split; [done|]. split.
  { rewrite lookup_app_l by lia. rewrite Hst1, list_lookup_delete_ge by lia.
    by replace (S (length (stored Visitor w) - 2))
         with (length (stored Visitor w) - 1) by lia. }
  split.
  { rewrite lookup_app_r by lia. by rewrite Hlen1, Nat.sub_diag. }
  split.
  { rewrite (dense_lookup _ _ _ Hd Hold). do 3 f_equal. lia. }
  split.
  { rewrite createdRecord_serial. do 3 f_equal. lia. }
  split; [done|].
  rewrite Hph, Hlen1.
  replace (length (stored Visitor w) - 1 + 1) with (length (stored Visitor w)) by lia.
  rewrite lookup_insert_ne by apply not_eq_sym, photoPath_front_back.
  apply lookup_insert_eq.
Qed.

Lemma plain_delete_then_create_duplicates_witness :
  ∃ (old data : record) w2,
    create Sample.quietEnv Visitor (Sample.visitorForm "Dave")
      (snd (deleteVisitor Sample.quietEnv "0002" Sample.threeVisitors))
    = (Created "Visitor created successfully" data, w2)
    ∧ stored Visitor w2 !! 1 = Some old
    ∧ stored Visitor w2 !! 2 = Some data
    ∧ old !! "serialNumber" = Some (VStr "0003")
    ∧ data !! "serialNumber" = Some (VStr "0003").
Proof.
  pose (w1 := snd (deleteVisitor Sample.quietEnv "0002" Sample.threeVisitors)).
  pose (data := createdRecord Sample.quietEnv Visitor 2 (Sample.visitorForm "Dave")).
  pose (w2 := snd (create Sample.quietEnv Visitor (Sample.visitorForm "Dave") w1)).
  assert (Hrun : create Sample.quietEnv Visitor (Sample.visitorForm "Dave") w1
                 = (Created "Visitor created successfully" data, w2))
    by (vm_compute; reflexivity).
  assert (Hd : dense (stored Visitor Sample.threeVisitors))
    by (vm_compute; reflexivity).
  assert (Hj : 1 ≤ 2 < length (stored Visitor Sample.threeVisitors))
    by (vm_compute; lia).
  destruct (plain_delete_then_create_duplicates Sample.quietEnv Sample.quietEnv
              (Sample.visitorForm "Dave") Sample.threeVisitors 2 _ _ _
              Hd Hj eq_refl Hrun)
    as (old & front & _ & H2 & H3 & H4 & H5 & _).
  exists old, data, w2. split; [exact Hrun|].
  split; [exact H2|]. split; [exact H3|]. split; [exact H4 | exact H5].
Defined.

(** ** Storage faults *)

(** X5. When the write of the collection file is rejected before the
    file is opened (the write fault of this model: the file is neither
    truncated nor created), a timeout or return and a delete with
    adjustment of an existing serial number answer 500 and persist
    nothing: both collection files and the photo directory are as
    before. *)
Theorem save_fault_persists_nothing e k sn (body : record) w msg :
  Some (VStr sn) ∈ field "serialNumber" (stored k w) →
  rejectsAtOpen e (collection_path k) msg →
  (∃ error w', setTime e k sn body w = (Failed error None, w')
               ∧ visitors_file w' = visitors_file w ∧ keys_file w' = keys_file w
               ∧ photos w' = photos w)
  ∧ (∃ error details w',
       deleteAdjust e k sn w = (Failed error details, w')
       ∧ visitors_file w' = visitors_file w ∧ keys_file w' = keys_file w
       ∧ photos w' = photos w).
Proof.
  unfold rejectsAtOpen. intros Hin Hfault.
  destruct (list_find (has_serial sn) (stored k w)) as [[i r]|] eqn:Hfind.
  - split.
    + unfold setTime, handler, setTimeBody, mbind, io_bind.
      destruct k; rewrite load_run, Hfind, (save_fault _ _ _ _ msg Hfault);
        eexists _, _; (split; [reflexivity | done]).
    + unfold deleteAdjust, handler, deleteAdjustBody, mbind, io_bind.
      destruct k;
        rewrite load_run, Hfind, deletePhotos_run, renumberFrom_run,
          (save_fault _ _ _ _ msg Hfault);
        eexists _, _, _; (split; [reflexivity | done]).
  - exfalso. unfold field in Hin.
    apply list_elem_of_fmap in Hin as (r & Hr & Hin).
    eapply list_find_None in Hfind. rewrite Forall_forall in Hfind.
    by apply (Hfind r).
Qed.

Lemma save_fault_persists_nothing_witness :
  rejectsAtOpen Scenario.readOnlyVisitorsEnv VISITORS_FILE
    "EROFS: read-only file system, open"
  ∧ ∃ error w',
    timeout Scenario.readOnlyVisitorsEnv "0002" {["timeOut" := VStr "17:45"]}
      Sample.threeVisitors = (Failed error None, w')
    ∧ visitors_file w' = visitors_file Sample.threeVisitors
    ∧ photos w' = photos Sample.threeVisitors.
Proof.
  split; [reflexivity|].
  destruct (save_fault_persists_nothing Scenario.readOnlyVisitorsEnv Visitor "0002"
              {["timeOut" := VStr "17:45"]} Sample.threeVisitors
              "EROFS: read-only file system, open")
    as [(error & w' & Hrun & H1 & _ & H3) _].
  - apply (bool_decide_unpack _). vm_compute. exact I.
  - reflexivity.
  - exists error, w'. split; [exact Hrun|]. split; [exact H1 | exact H3].
Defined.

(** X6. When the write of the collection file is rejected before the file
    is opened (the write fault of this model: the file is neither
    truncated nor created), the plain delete of an existing serial number
    answers 500 and the record stays in the collection, but its photo
    files have already been unlinked. *)
Theorem plain_delete_fault_loses_photos e sn w msg :
  Some (VStr sn) ∈ field "serialNumber" (stored Visitor w) →
  rejectsAtOpen e VISITORS_FILE msg →
  is_Some (photos w !! photoPath Visitor sn "front") →
  ∃ w', deleteVisitor e sn w = (Answer (Failed "Failed to delete visitor" None), w')
        ∧ visitors_file w' = visitors_file w ∧ keys_file w' = keys_file w
        ∧ photos w' !! photoPath Visitor sn "front" = None
        ∧ photos w' !! photoPath Visitor sn "back" = None.
Proof.
  unfold rejectsAtOpen. intros Hin Hfault [f Hf].
  destruct (list_find (has_serial sn) (stored Visitor w)) as [[i r]|] eqn:Hfind.
  - destruct (deleteVisitor_found e sn w i r Hfind) as (l & Hrun).
    rewrite Hfault in Hrun. eexists. split; [exact Hrun|].
    split; [done|]. split; [done|]. simpl. unfold afterUnlinks. rewrite Hf.
    split; [|apply lookup_delete_eq].
    rewrite lookup_delete_ne by apply not_eq_sym, photoPath_front_back.
    apply lookup_delete_eq.
  - exfalso. unfold field in Hin.
    apply list_elem_of_fmap in Hin as (r & Hr & Hin).
    eapply list_find_None in Hfind. rewrite Forall_forall in Hfind.
    by apply (Hfind r).
Qed.

Lemma plain_delete_fault_loses_photos_witness :
  rejectsAtOpen Scenario.readOnlyVisitorsEnv VISITORS_FILE
    "EROFS: read-only file system, open"
  ∧ ∃ w', deleteVisitor Scenario.readOnlyVisitorsEnv "0002" Sample.threeVisitors
        = (Answer (Failed "Failed to delete visitor" None), w')
        ∧ visitors_file w' = visitors_file Sample.threeVisitors
        ∧ photos w' !! "data/photos/0002_front.jpg" = None
        ∧ photos w' !! "data/photos/0002_back.jpg" = None.
Proof.
  split; [reflexivity|].
  destruct (plain_delete_fault_loses_photos Scenario.readOnlyVisitorsEnv "0002"
              Sample.threeVisitors "EROFS: read-only file system, open")
    as (w' & Hrun & H1 & _ & H3 & H4).
  - apply (bool_decide_unpack _). vm_compute. exact I.
  - reflexivity.
  - vm_compute. eauto.
  - exists w'. split; [exact Hrun|]. split; [exact H1|]. split; [exact H3 | exact H4].
Defined.

(** ** What a create writes *)

Lemma createdRecord_photo_urls e k n (body : record) :
  createdRecord e k n body !! "frontPhoto"
  = Some (VStr (photoUrl k (serialOf (n + 1)) "front"))
  ∧ createdRecord e k n body !! "backPhoto"
    = Some (VStr (photoUrl k (serialOf (n + 1)) "back")).
Proof.
  unfold createdRecord. split.
  - rewrite lookup_insert_ne by done. apply lookup_insert_eq.
  - apply lookup_insert_eq.
Qed.

(** X7. After a create that answers 201 the photo directory holds, under
    the names built from the new serial number, the two payloads of the
    request without their data-URI prefix; the stored record refers to
    exactly these two files by [/photos/<name>], and no other photo file
    has changed. *)
Theorem create_writes_referenced_photos e k (body : record) w msg data w' :
  create e k body w = (Created msg data, w') →
  ∃ serial front back,
    serial = serialOf (length (stored k w) + 1)
    ∧ body !! "frontPhoto" = Some (VStr front)
    ∧ body !! "backPhoto" = Some (VStr back)
    ∧ data !! "frontPhoto" = Some (VStr ("/photos/" +:+ photoName k serial "front"))
    ∧ data !! "backPhoto" = Some (VStr ("/photos/" +:+ photoName k serial "back"))
    ∧ photos w' !! (path_join PHOTOS_DIR (photoName k serial "front"))
      = Some (strip_data_uri front)
    ∧ photos w' !! (path_join PHOTOS_DIR (photoName k serial "back"))
      = Some (strip_data_uri back)
    ∧ ∀ path, path ≠ path_join PHOTOS_DIR (photoName k serial "front") →
              path ≠ path_join PHOTOS_DIR (photoName k serial "back") →
              photos w' !! path = photos w !! path.
Proof.
  intros Hrun.
  destruct (create_cases e k body w)
    as [(m & w1 & Hc & _) | (front & back & w1 & Hc & _ & Hf & Hb & _ & _ & Hph)];
    rewrite Hc in Hrun; [done|].
  injection Hrun as _ <- <-.
  exists (serialOf (length (stored k w) + 1)), front, back.
  destruct (createdRecord_photo_urls e k (length (stored k w)) body) as [Hu1 Hu2].
  split; [done|]. split; [done|]. split; [done|].
  split; [exact Hu1|]. split; [exact Hu2|].
  rewrite Hph. fold (photoPath k (serialOf (length (stored k w) + 1)) "front").
  fold (photoPath k (serialOf (length (stored k w) + 1)) "back").
  split; [rewrite lookup_insert_ne by apply not_eq_sym, photoPath_front_back;
          apply lookup_insert_eq|].
  split; [apply lookup_insert_eq|].
  intros path H1 H2. by rewrite !lookup_insert_ne.
Qed.

Lemma create_writes_referenced_photos_witness :
  ∃ data w',
    create Sample.quietEnv Key (Sample.keyForm "Alice") Sample.emptyWorld
    = (Created "Key entry created successfully" data, w')
    ∧ data !! "frontPhoto" = Some (VStr "/photos/key_0001_front.jpg")
    ∧ photos w' !! "data/photos/key_0001_front.jpg" = Some "front-of-Alice"
    ∧ photos w' !! "data/photos/key_0001_back.jpg" = Some "back-of-Alice".
Proof.
  pose (data := createdRecord Sample.quietEnv Key 0 (Sample.keyForm "Alice")).
  pose (w' := snd (create Sample.quietEnv Key (Sample.keyForm "Alice")
                     Sample.emptyWorld)).
  assert (Hrun : create Sample.quietEnv Key (Sample.keyForm "Alice") Sample.emptyWorld
                 = (Created "Key entry created successfully" data, w'))
    by (vm_compute; reflexivity).
  destruct (create_writes_referenced_photos _ _ _ _ _ _ _ Hrun)
    as (serial & front & back & -> & Hf & Hb & H1 & _ & H3 & H4 & _).
  exists data, w'. split; [exact Hrun|]. split; [exact H1|].
  assert (front = "data:image/jpeg;base64,front-of-Alice") as ->
    by (revert Hf; vm_compute; congruence).
  assert (back = "data:image/jpeg;base64,back-of-Alice") as ->
    by (revert Hb; vm_compute; congruence).
  split; [exact H3 | exact H4].
Defined.

(** X8. A create answers 201 or 400 and nothing else.  A 400 leaves the
    collection file of the other kind as it was, and its own collection
    file too whenever the write of that file is not rejected: the 400
    then arose before the save, which was never called.  When it was the
    validation that failed, nothing but the log changes and the message
    is that of the validation error. *)
Theorem create_rejection_writes_no_record e k (body : record) w :
  ((∃ msg data, fst (create e k body w) = Created msg data)
   ∨ (∃ msg, fst (create e k body w) = BadRequest msg))
  ∧ (∀ msg w', create e k body w = (BadRequest msg, w') →
       (∀ k', k' ≠ k → collection_file k' w' = collection_file k' w)
       ∧ (writeFile_fault e (collection_path k) = None →
          collection_file k w' = collection_file k w))
  ∧ (∀ err, validate k body = Throw err →
       create e k body w
       = (BadRequest (or_else (message err) (createFailure k)),
          add_log [(createLogText k, err)] w)).
Proof.
  split; [|split].
  - destruct (create_cases e k body w)
      as [(m & w1 & -> & _) | (front & back & w1 & -> & _)]; eauto.
  - intros msg w' [H1 H2]%create_BadRequest_collections. split.
    + intros k' _. by destruct k'.
    + intros _. by destruct k.
  - apply create_validation_throw.
Qed.

Lemma create_rejection_writes_no_record_witness :
  ∃ msg w',
    create Scenario.backPhotoDeniedEnv Visitor (Sample.visitorForm "Alice")
      Sample.emptyWorld = (BadRequest msg, w')
    ∧ keys_file w' = keys_file Sample.emptyWorld
    ∧ visitors_file w' = visitors_file Sample.emptyWorld.
Proof.
  pose (w' := snd (create Scenario.backPhotoDeniedEnv Visitor
                     (Sample.visitorForm "Alice") Sample.emptyWorld)).
  assert (Hrun : create Scenario.backPhotoDeniedEnv Visitor
                   (Sample.visitorForm "Alice") Sample.emptyWorld
                 = (BadRequest
                      "EACCES: permission denied, open 'data/photos/0001_back.jpg'",
                    w'))
    by (vm_compute; reflexivity).
  destruct (create_rejection_writes_no_record Scenario.backPhotoDeniedEnv Visitor
              (Sample.visitorForm "Alice") Sample.emptyWorld) as (_ & H & _).
  destruct (H _ _ Hrun) as [Hother Hown].
  eexists _, w'. split; [exact Hrun|]. split.
  - exact (Hother Key ltac:(discriminate)).
  - exact (Hown eq_refl).
Defined.

(** ** Not found, and the list routes *)

(** X9. A timeout or return on a serial number that no record carries
    answers "not found" and writes nothing. *)
Theorem set_time_not_found e k sn (body : record) w :
  Some (VStr sn) ∉ field "serialNumber" (stored k w) →
  ∃ w', setTime e k sn body w = (NotFound (notFoundError k), w')
        ∧ visitors_file w' = visitors_file w ∧ keys_file w' = keys_file w
        ∧ photos w' = photos w.
Proof.
  intros Hnot.
  assert (Hfind : list_find (has_serial sn) (stored k w) = None).
  { apply list_find_None, Forall_forall. intros r Hr Hs.
    apply Hnot. unfold field. apply list_elem_of_fmap. by exists r. }
  unfold setTime, handler, setTimeBody, mbind, io_bind.
  destruct k; rewrite load_run, Hfind; eexists; (split; [reflexivity | done]).
Qed.

Lemma set_time_not_found_witness :
  ∃ w', keyReturn Sample.quietEnv "0009" {["timeReturned" := VStr "18:00"]}
          Sample.twoKeys = (NotFound "Key not found", w')
        ∧ keys_file w' = keys_file Sample.twoKeys.
Proof.
  destruct (set_time_not_found Sample.quietEnv Key "0009"
              {["timeReturned" := VStr "18:00"]} Sample.twoKeys)
    as (w' & Hrun & _ & H2 & _).
  - apply (bool_decide_unpack _). vm_compute. exact I.
  - exists w'. split; [exact Hrun | exact H2].
Defined.

(** The list routes never answer an error: they answer the
    collection in stored order, the empty list when the file cannot be
    read, and write no file. *)
Lemma list_answers_stored_collection k w :
  fst (listAll k w) = Listing (stored k w)
  ∧ (collection_file k w = None → fst (listAll k w) = Listing [])
  ∧ visitors_file (snd (listAll k w)) = visitors_file w
  ∧ keys_file (snd (listAll k w)) = keys_file w
  ∧ photos (snd (listAll k w)) = photos w.
Proof.
  rewrite listAll_run. repeat split; try done.
  intros H. unfold stored. by rewrite H.
Qed.

(** ** Returned keys and the stats *)

Lemma stats_run w :
  stats w = (StatsOf (length (stored Visitor w)) (countActive (stored Key w)),
             add_log (loadLog Visitor w ++ loadLog Key w) w).
Proof.
  unfold stats, handler, statsBody, loadVisitors, loadKeys, mbind, io_bind.
  rewrite !load_run. unfold mret, io_ret.
  rewrite countActive_filter, add_log_add_log.
  unfold stored at 3, loadLog at 3. by rewrite collection_file_add_log.
Qed.

Lemma countActive_insert keys : ∀ i (k k' : record),
  keys !! i = Some k →
  countActive (<[i := k']> keys) + activeWeight k
  = countActive keys + activeWeight k'.
Proof.
  unfold activeWeight.
  induction keys as [|k0 keys IH]; intros i k k' Hi; [done|].
  destruct i as [|i]; simpl in *.
  - injection Hi as ->. lia.
  - specialize (IH i k k' Hi). lia.
Qed.

(** X10. After the return of a key that was active, with a time value that
    is truthy (any non-empty string), and without a storage fault, the
    stats answer one active key less and the same number of visitors. *)
Theorem return_lowers_active_keys e sn (body : record) w i (k : record) :
  list_find (has_serial sn) (stored Key w) = Some (i, k) →
  lacksTimeReturned k = true →
  truthy (body !! "timeReturned") = true →
  writeFile_fault e KEYS_FILE = None →
  ∃ totalVisitors activeKeys,
    fst (stats w) = StatsOf totalVisitors (S activeKeys)
    ∧ fst (stats (snd (keyReturn e sn body w))) = StatsOf totalVisitors activeKeys.
Proof.
  intros Hfind Hactive Htime Hok.
  pose proof Hfind as (Hi & _)%list_find_Some.
  unfold keyReturn. rewrite (setTime_found e Key sn body w i k Hfind Hok).
  rewrite !stats_run. cbn [fst snd].
  rewrite stored_set_collection_file.
  pose proof (countActive_insert (stored Key w) i k
                (assign "timeReturned" (body !! "timeReturned") k) Hi) as Hc.
  unfold activeWeight in Hc. rewrite Hactive in Hc.
  unfold lacksTimeReturned in Hc. rewrite assign_lookup, Htime in Hc.
  simpl in Hc.
  exists (length (stored Visitor w)),
         (countActive (<[i := assign "timeReturned" (body !! "timeReturned") k]>
                         (stored Key w))).
  split; [f_equal; lia|]. f_equal.
Qed.

Lemma return_lowers_active_keys_witness :
  fst (stats Sample.twoKeys) = StatsOf 0 1
  ∧ fst (stats (snd (keyReturn Sample.quietEnv "0002"
                       {["timeReturned" := VStr "18:00"]} Sample.twoKeys)))
    = StatsOf 0 0.
Proof.
  pose (k := createdRecord Sample.quietEnv Key 1 (Sample.keyForm "Bob")).
  destruct (return_lowers_active_keys Sample.quietEnv "0002"
              {["timeReturned" := VStr "18:00"]} Sample.twoKeys 1 k)
    as (total & active & H1 & H2).
  - vm_compute; reflexivity.
  - vm_compute; reflexivity.
  - vm_compute; reflexivity.
  - reflexivity.
  - assert (Hs : fst (stats Sample.twoKeys) = StatsOf 0 1)
      by (vm_compute; reflexivity).
    rewrite Hs in H1. injection H1 as <- <-. split; [done | exact H2].
Defined.

(** ** What the validators accept *)

(** X11. The validators of the main server accept a request exactly when
    every required property is a string that is non-empty after trimming,
    the identity number matches the pattern and both photo properties are
    truthy; they never answer [false]. *)
Theorem validate_accepts_iff k (r : record) :
  (validate k r = Return true
   ↔ (∀ f, f ∈ Server.requiredFields k → present (r !! f))
     ∧ idNumber_conforms r = true
     ∧ truthy (r !! "frontPhoto") = true
     ∧ truthy (r !! "backPhoto") = true)
  ∧ validate k r ≠ Return false.
Proof.
  split; [split|].
  - intros Hv.
    split; [intros f Hf; by eapply validate_true_present|].
    revert Hv. rewrite validate_spec.
    destruct (negb (forallb _ _)); [done|]. destruct (missing k r); [|done].
    destruct (idNumber_conforms r); [|done].
    destruct (truthy (r !! "frontPhoto")); destruct (truthy (r !! "backPhoto"));
      done.
  - intros (Hpres & Hid & Hf & Hb). rewrite validate_spec.
    by rewrite (all_present_isText _ _ Hpres), (all_present_missing _ _ Hpres),
      Hid, Hf, Hb.
  - rewrite validate_spec.
    destruct (negb (forallb _ _)); [done|]. destruct (missing k r); [|done].
    destruct (negb (idNumber_conforms r)); [done|]. by destruct (_ || _).
Qed.

(** X12. The validator of the multipart variant accepts a request exactly
    when its four required properties are truthy; it does not trim, so a
    name made of spaces passes. *)
Theorem variant_validate_accepts_iff (data : record) :
  (Variant.validateVisitorData data = Return ()
   ↔ ∀ f, f ∈ Variant.requiredFields → truthy (data !! f) = true)
  ∧ (∀ f, f ∈ Variant.requiredFields →
          Variant.validateVisitorData (<[f := VStr "   "]> data)
          = Variant.validateVisitorData (<[f := VStr "x"]> data)).
Proof.
  unfold Variant.validateVisitorData. split.
  - induction Variant.requiredFields as [|f fields IH]; simpl.
    + split; [by intros _ f Hf%elem_of_nil | done].
    + destruct (truthy (data !! f)) eqn:Hf; simpl.
      * rewrite IH. split.
        -- intros H g [->|Hg]%elem_of_cons; [done | by apply H].
        -- intros H g Hg. apply H. by right.
      * split; [done|]. intros H. specialize (H f (list_elem_of_here _ _)).
        congruence.
  - intros f _. rewrite !checkFields_first.
    assert (Heq : ∀ g, truthy (<[f := VStr "   "]> data !! g)
                       = truthy (<[f := VStr "x"]> data !! g)).
    { intros g. destruct (decide (f = g)) as [->|Hne].
      - by rewrite !lookup_insert_eq.
      - by rewrite !lookup_insert_ne. }
    induction Variant.requiredFields as [|g fields IH]; simpl; [done|].
    rewrite Heq. by destruct (negb _).
Qed.

(** ** Trimming and the data-URI prefix *)

Lemma trimStart_empty_iff s : trimStart s = "" ↔ allWhiteSpace s = true.
Proof.
  induction s as [|c s IH]; simpl; [done|].
  destruct (is_white_space c); simpl; [done|]. split; discriminate.
Qed.

Lemma trimStart_idem s : trimStart (trimStart s) = trimStart s.
Proof.
  induction s as [|c s IH]; simpl; [done|].
  destruct (is_white_space c) eqn:Hc; [done|]. simpl. by rewrite Hc.
Qed.

Lemma allWhiteSpace_rev_app s : ∀ t,
  allWhiteSpace (String.rev_app s t) = allWhiteSpace s && allWhiteSpace t.
Proof.
  induction s as [|c s IH]; intros t; simpl; [done|].
  rewrite IH. simpl. destruct (is_white_space c), (allWhiteSpace s); done.
Qed.

Lemma rev_app_empty s : ∀ t, String.rev_app s t = "" → s = "" ∧ t = "".
Proof.
  induction s as [|c s IH]; intros t; simpl; [done|].
  intros [_ [=]]%IH.
Qed.

Lemma trim_empty_iff s : trim s = "" ↔ allWhiteSpace s = true.
Proof.
  unfold trim, trimEnd, String.rev. split.
  - intros [Ht _]%rev_app_empty.
    apply trimStart_empty_iff in Ht.
    rewrite allWhiteSpace_rev_app, andb_true_r in Ht.
    apply trimStart_empty_iff. rewrite <- trimStart_idem.
    by apply trimStart_empty_iff.
  - intros ->%trimStart_empty_iff. reflexivity.
Qed.

Lemma is_white_space_codes c :
  is_white_space c = bool_decide (nat_of_ascii c ∈ whiteSpaceCodes).
Proof. destruct c as [[] [] [] [] [] [] [] []]; vm_compute; reflexivity. Qed.

Lemma allWhiteSpace_whiteSpaceOnly s : allWhiteSpace s = whiteSpaceOnly s.
Proof.
  induction s as [|c s IH]; [done|].
  cbn [allWhiteSpace whiteSpaceOnly]. by rewrite is_white_space_codes, IH.
Qed.

Lemma holdsWhiteSpace_string (r : record) f s :
  r !! f = Some (VStr s) →
  holdsWhiteSpace r f
  = negb (truthy (r !! f)) || String.eqb (trim s) "".
Proof.
  intros Hf. unfold holdsWhiteSpace. rewrite Hf, <- allWhiteSpace_whiteSpaceOnly.
  destruct (allWhiteSpace s) eqn:Hs.
  - apply trim_empty_iff in Hs. rewrite Hs. by rewrite orb_true_r.
  - symmetry. apply orb_false_iff. split.
    + destruct s; [done|reflexivity].
    + apply String.eqb_neq. intros Ht%trim_empty_iff. congruence.
Qed.

(** On properties that all hold strings the loop over the fields never
    throws and pushes, in order, the fields of white space only. *)
Lemma collectMissing_strings k fields (r : record) missingFields :
  (∀ f, f ∈ fields → ∃ s, r !! f = Some (VStr s)) →
  collectMissing k fields r missingFields
  = Return (missingFields ++ List.filter (holdsWhiteSpace r) fields).
Proof.
  revert missingFields.
  induction fields as [|f fields IH]; intros missingFields Hstr.
  - simpl. by rewrite app_nil_r.
  - destruct (Hstr f) as [s Hf]; [apply list_elem_of_here|].
    assert (Hrest : ∀ g, g ∈ fields → ∃ t, r !! g = Some (VStr t)).
    { intros g Hg. apply Hstr. by apply list_elem_of_further. }
    cbn [collectMissing List.filter].
    rewrite (holdsWhiteSpace_string r f s Hf), Hf.
    destruct (negb (truthy (Some (VStr s)))); cbn [orb].
    + rewrite (IH _ Hrest). by rewrite <- app_assoc.
    + destruct (String.eqb (trim s) "").
      * rewrite (IH _ Hrest). by rewrite <- app_assoc.
      * apply (IH _ Hrest).
Qed.

(** X13. On a request whose required properties all hold strings, the loop
    of [validateVisitorData] and [validateKeyData] over the required
    fields never throws and collects, in the order of the list, exactly
    the fields whose string consists of white space only, the empty
    string included; when there is such a field the validator throws
    "Missing required fields: " followed by these names, and when there
    is none it throws no error of that form.  White space is TAB, LF, VT,
    FF, CR, space and NBSP (code units 9 to 13, 32 and 160): what [trim]
    removes among the code units below 256, of which the strings here
    are made. *)
Theorem validate_reports_white_space_fields k (r : record) :
  (∀ f, f ∈ requiredFields k → ∃ s, r !! f = Some (VStr s)) →
  collectMissing k (requiredFields k) r []
  = Return (List.filter (holdsWhiteSpace r) (requiredFields k))
  ∧ match List.filter (holdsWhiteSpace r) (requiredFields k) with
    | [] => ∀ names,
        validate k r ≠ Throw (Error ("Missing required fields: " +:+ names))
    | blank =>
        validate k r
        = Throw (Error ("Missing required fields: " +:+ String.concat ", " blank))
    end.
Proof.
  intros Hstr.
  pose proof (collectMissing_strings k (requiredFields k) r [] Hstr) as Hrun.
  rewrite app_nil_l in Hrun. split; [exact Hrun|].
  unfold validate. rewrite Hrun.
  destruct (List.filter (holdsWhiteSpace r) (requiredFields k)) as [|f blank];
    [|reflexivity].
  cbn [length Nat.ltb Nat.leb]. intros names.
  destruct (negb (idNumber_conforms r)).
  { destruct k; discriminate. }
  destruct (negb (truthy (r !! "frontPhoto")) || negb (truthy (r !! "backPhoto")));
    discriminate.
Qed.

Lemma validate_reports_white_space_fields_witness :
  collectMissing Visitor (requiredFields Visitor) Scenario.blankNameForm []
  = Return ["name"; "company"]
  ∧ validateVisitorData Scenario.blankNameForm
    = Throw (Error "Missing required fields: name, company").
Proof.
  destruct (validate_reports_white_space_fields Visitor Scenario.blankNameForm)
    as [Hrun Hthrow].
  - intros f Hf. unfold requiredFields in Hf.
    repeat (apply elem_of_cons in Hf as [->|Hf];
            [match goal with
             | |- ∃ s, ?v = _ =>
                 exists (match v with Some (VStr s) => s | _ => "" end)
             end; vm_compute; reflexivity|]).
    by apply not_elem_of_nil in Hf.
  - split.
    + etrans; [exact Hrun | vm_compute; reflexivity].
    + assert (Hblank : List.filter (holdsWhiteSpace Scenario.blankNameForm)
                         (requiredFields Visitor) = ["name"; "company"])
        by (vm_compute; reflexivity).
      rewrite Hblank in Hthrow. exact Hthrow.
Defined.

Lemma strip_literal_app lit rest : strip_literal lit (lit +:+ rest) = Some rest.
Proof.
  induction lit as [|c lit IH]; simpl; [by destruct rest|].
  by rewrite Ascii.eqb_refl.
Qed.

Lemma strip_literal_Some lit s rest :
  strip_literal lit s = Some rest → s = lit +:+ rest.
Proof.
  revert s. induction lit as [|c lit IH]; intros s; simpl.
  - by intros [= ->].
  - destruct s as [|c' s]; [done|].
    destruct (Ascii.eqb_spec c c') as [->|]; [|done].
    intros ->%IH. done.
Qed.

Lemma span_word_app w rest :
  allWordChars w = true →
  (∀ c rest', rest = String c rest' → is_word_char c = false) →
  span_word (w +:+ rest) = (w, rest).
Proof.
  intros Hw Hrest. induction w as [|c w IH]; simpl in *.
  - destruct rest as [|c rest']; [done|]. simpl.
    by rewrite (Hrest c rest' eq_refl).
  - apply andb_true_iff in Hw as [Hc Hw]. by rewrite Hc, (IH Hw).
Qed.

Lemma span_word_join s : ∀ w rest, span_word s = (w, rest) → s = w +:+ rest.
Proof.
  induction s as [|c s IH]; intros w rest; simpl.
  - by intros [= <- <-].
  - destruct (is_word_char c).
    + destruct (span_word s) as [w' rest'] eqn:E. intros [= <- <-].
      simpl. by rewrite (IH w' rest').
    + by intros [= <- <-].
Qed.

(** X14. Stripping the data-URI prefix removes exactly a leading
    [data:image/<type>;base64,] whose type is a non-empty run of word
    characters and gives back the payload behind it; in every case the
    result is the input without some leading part, so a payload is never
    altered. *)
Theorem strip_data_uri_removes_prefix :
  (∀ type payload,
     allWordChars type = true → type ≠ "" →
     strip_data_uri ("data:image/" +:+ type +:+ ";base64," +:+ payload) = payload)
  ∧ (∀ s, ∃ pre, s = pre +:+ strip_data_uri s)
  ∧ (∀ s, strip_literal "data:image/" s = None → strip_data_uri s = s).
Proof.
  split; [|split].
  - intros type payload Hw Hne. unfold strip_data_uri.
    rewrite (strip_literal_app "data:image/").
    rewrite span_word_app; [|done|by intros c rest' [= <- _]].
    destruct type as [|c type]; [done|].
    by rewrite (strip_literal_app ";base64,").
  - intros s. unfold strip_data_uri.
    destruct (strip_literal "data:image/" s) as [s1|] eqn:H1; [|by exists ""].
    destruct (span_word s1) as [w s2] eqn:H2.
    destruct w as [|c w]; [by exists ""|].
    destruct (strip_literal ";base64," s2) as [payload|] eqn:H3; [|by exists ""].
    apply strip_literal_Some in H1, H3. apply span_word_join in H2.
    exists ("data:image/" +:+ String c w +:+ ";base64,").
    rewrite H1, H2, H3. by rewrite !string_app_assoc.
  - intros s H. unfold strip_data_uri. by rewrite H.
Qed.

Lemma strip_data_uri_removes_prefix_witness :
  strip_data_uri ("data:image/" +:+ "png" +:+ ";base64," +:+ "iVBORw0KGgo=")
  = "iVBORw0KGgo=".
Proof.
  destruct strip_data_uri_removes_prefix as [H _].
  apply H; [reflexivity | discriminate].
Defined.

(** ** Start-up *)

(** X15. Without a fault, start-up creates the two directories and leaves
    both collection files in place when both are there; when either of
    them is missing it writes the empty list to both, so that the records
    of the one that was there are lost. *)
Theorem boot_resets_both_files e mkdir_fault d :
  mkdir_fault DATA_DIR = None → mkdir_fault PHOTOS_DIR = None →
  writeFile_fault e VISITORS_FILE = None → writeFile_fault e KEYS_FILE = None →
  ∃ d', Boot.initializeDataDirectories e mkdir_fault d = (Return (), d')
        ∧ DATA_DIR ∈ Boot.directories d' ∧ PHOTOS_DIR ∈ Boot.directories d'
        ∧ (Boot.visitorsJson d ≠ Boot.Absent → Boot.keysJson d ≠ Boot.Absent →
           Boot.visitorsJson d' = Boot.visitorsJson d
           ∧ Boot.keysJson d' = Boot.keysJson d)
        ∧ (Boot.visitorsJson d = Boot.Absent ∨ Boot.keysJson d = Boot.Absent →
           Boot.visitorsJson d' = Boot.Holds (Some [])
           ∧ Boot.keysJson d' = Boot.Holds (Some [])).
Proof.
  intros H1 H2 H3 H4. unfold Boot.initializeDataDirectories.
  rewrite H1, H2. cbn [Boot.visitorsJson Boot.keysJson Boot.directories].
  destruct (Boot.visitorsJson d) as [|v] eqn:Hv;
    destruct (Boot.keysJson d) as [|k] eqn:Hk;
    cbn [Boot.accessible andb]; rewrite ?H3, ?H4;
    eexists; (split; [reflexivity|]);
    cbn [Boot.visitorsJson Boot.keysJson Boot.directories];
    (split; [set_solver|]); (split; [set_solver|]);
    (split; [intros ? ?; done || (split; congruence)|]);
    intros [?|?]; done.
Qed.

Lemma boot_resets_both_files_witness :
  ∃ d', Boot.initializeDataDirectories Sample.quietEnv (λ _, None) Scenario.keysMissing
        = (Return (), d')
        ∧ Boot.visitorsJson Scenario.keysMissing
          = Boot.Holds (Some [Sample.visitorForm "Alice"])
        ∧ Boot.visitorsJson d' = Boot.Holds (Some [])
        ∧ Boot.keysJson d' = Boot.Holds (Some []).
Proof.
  destruct (boot_resets_both_files Sample.quietEnv (λ _, None) Scenario.keysMissing)
    as (d' & Hrun & _ & _ & _ & Hreset); try reflexivity.
  exists d'. split; [exact Hrun|]. split; [reflexivity|].
  apply Hreset. by right.
Defined.

(** ** The next serial number of the variant *)

Lemma digit_facts c :
  is_digit c = true →
  is_white_space c = false
  ∧ Ascii.eqb c "-" = false ∧ Ascii.eqb c "+" = false
  ∧ Ascii.eqb c "x" = false ∧ Ascii.eqb c "X" = false
  ∧ VariantSerial.digitValue 10 c
    = Some (Z.of_nat (nat_of_ascii c) - 48)%Z.
Proof.
  destruct c as [[] [] [] [] [] [] [] []]; vm_compute; intros H;
    try discriminate H; repeat split.
Qed.

Lemma allDigits_app s t : allDigits (s +:+ t) = allDigits s && allDigits t.
Proof.
  induction s as [|c s IH]; simpl; [done|]. rewrite IH. by rewrite andb_assoc.
Qed.

Lemma allDigits_repeat_zero n : allDigits (repeat_char n "0") = true.
Proof.
  induction n as [|n IH]; [done|]. cbn [repeat_char allDigits]. by rewrite IH.
Qed.

Lemma allDigits_string_of_uint d : allDigits (NilEmpty.string_of_uint d) = true.
Proof.
  induction d; cbn [NilEmpty.string_of_uint allDigits]; [done|..];
    rewrite IHd; vm_compute; reflexivity.
Qed.

Lemma allDigits_serialOf n : allDigits (serialOf n) = true.
Proof.
  unfold serialOf, padStart, toString.
  by rewrite allDigits_app, allDigits_repeat_zero, allDigits_string_of_uint.
Qed.

Lemma string_of_uint_nonempty n : NilEmpty.string_of_uint (Nat.to_uint n) ≠ "".
Proof.
  intros H. apply (f_equal NilEmpty.uint_of_string) in H.
  rewrite NilEmpty.usu in H. simpl in H. injection H as H.
  assert (Hn : n = 0).
  { apply (f_equal Nat.of_uint) in H.
    by rewrite DecimalNat.Unsigned.of_to in H. }
  subst n. vm_compute in H. discriminate H.
Qed.

Lemma parseDigits_uint d : ∀ acc,
  VariantSerial.parseDigits 10 (NilEmpty.string_of_uint d) (Some (Z.of_nat acc))
  = Some (Z.of_nat (Nat.of_uint_acc d acc)).
Proof.
  induction d; intros acc; cbn [NilEmpty.string_of_uint Nat.of_uint_acc];
    [done|..];
    cbn [VariantSerial.parseDigits];
    match goal with
    | |- context [VariantSerial.digitValue 10 ?c] =>
        let v := eval vm_compute in (VariantSerial.digitValue 10 c) in
        change (VariantSerial.digitValue 10 c) with v
    end;
    cbn [default from_option]; rewrite <- IHd; do 2 f_equal;
    rewrite ?Nat.tail_mul_spec; unfold id; lia.
Qed.

Lemma parseDigits_zeros m t :
  VariantSerial.parseDigits 10 (repeat_char m "0" +:+ t) (Some 0%Z)
  = VariantSerial.parseDigits 10 t (Some 0%Z).
Proof. induction m as [|m IH]; [done | exact IH]. Qed.

Lemma parseDigits_serialOf n :
  VariantSerial.parseDigits 10 (serialOf n) None = Some (Z.of_nat n).
Proof.
  assert (H0 : VariantSerial.parseDigits 10 (serialOf n) (Some 0%Z)
               = Some (Z.of_nat n)).
  { unfold serialOf, padStart, toString. rewrite parseDigits_zeros.
    rewrite (parseDigits_uint _ 0). fold (Nat.of_uint (Nat.to_uint n)).
    by rewrite DecimalNat.Unsigned.of_to. }
  rewrite <- H0. pose proof (allDigits_serialOf n) as Hd.
  destruct (serialOf n) as [|c s] eqn:E.
  - exfalso. unfold serialOf, padStart, toString in E.
    destruct (repeat_char _ _); [|discriminate].
    by apply (string_of_uint_nonempty n).
  - cbn [allDigits] in Hd. apply andb_true_iff in Hd as [Hc _].
    destruct (digit_facts c Hc) as (_ & _ & _ & _ & _ & Hv).
    cbn [VariantSerial.parseDigits]. by rewrite Hv.
Qed.

Lemma parseInt_serialOf n :
  VariantSerial.parseInt (serialOf n) = VariantSerial.exact (Z.of_nat n).
Proof.
  pose proof (parseDigits_serialOf n) as Hp.
  pose proof (allDigits_serialOf n) as Hd.
  unfold VariantSerial.parseInt.
  destruct (serialOf n) as [|c0 s] eqn:E; [discriminate Hp|].
  simpl in Hd. apply andb_true_iff in Hd as [Hc0 Hs].
  destruct (digit_facts c0 Hc0) as (Hws & Hminus & Hplus & _).
  cbn [trimStart]. rewrite Hws, Hminus, Hplus.
  destruct s as [|c1 s].
  - by rewrite Hp.
  - simpl in Hs. apply andb_true_iff in Hs as [Hc1 _].
    destruct (digit_facts c1 Hc1) as (_ & _ & _ & Hx & HX & _).
    rewrite Hx, HX, andb_false_r. by rewrite Hp.
Qed.

Lemma exact_small z : (Z.abs z ≤ 2 ^ 53)%Z → VariantSerial.exact z = VariantSerial.Int z.
Proof.
  intros H. unfold VariantSerial.exact.
  destruct (Z.leb_spec (Z.abs z) (2 ^ 53)); [done | lia].
Qed.

Lemma next_after_serialOf n :
  (Z.of_nat n < 2 ^ 53)%Z →
  padStart 4 "0"
    <$> VariantSerial.numberToString
          (VariantSerial.succNumber (VariantSerial.parseInt (serialOf n)))
  = Some (serialOf (n + 1)).
Proof.
  intros Hn. rewrite parseInt_serialOf, exact_small by lia.
  cbn [VariantSerial.succNumber]. rewrite exact_small by lia.
  cbn [VariantSerial.numberToString fmap option_fmap option_map].
  destruct (Z.leb_spec 0 (Z.of_nat n + 1)); [|lia].
  unfold serialOf. do 3 f_equal. lia.
Qed.

(** X16. The next serial number of the variant is ['0001'] for a missing
    file and for an empty collection; otherwise it is the successor of the
    serial number of the last record, padded to four characters, whatever
    the other records carry; on a dense collection that is the serial
    number the main server's create would assign.  A last record without
    a serial number gives ['0NaN'], and a file that cannot be read or
    parsed makes the function throw. *)
Theorem variant_next_serial_number :
  VariantSerial.getNextSerialNumber Boot.Absent = Return (Some "0001")
  ∧ VariantSerial.getNextSerialNumber (Boot.Holds (Some [])) = Return (Some "0001")
  ∧ (∀ visitors (lastVisitor : record) n,
       last visitors = Some lastVisitor →
       lastVisitor !! "serialNumber" = Some (VStr (serialOf n)) →
       (Z.of_nat n < 2 ^ 53)%Z →
       VariantSerial.getNextSerialNumber (Boot.Holds (Some visitors))
       = Return (Some (serialOf (n + 1))))
  ∧ (∀ visitors,
       dense visitors → visitors ≠ [] → (Z.of_nat (length visitors) < 2 ^ 53)%Z →
       VariantSerial.getNextSerialNumber (Boot.Holds (Some visitors))
       = Return (Some (serialOf (length visitors + 1))))
  ∧ (∀ visitors (lastVisitor : record),
       last visitors = Some lastVisitor →
       lastVisitor !! "serialNumber" = None →
       VariantSerial.getNextSerialNumber (Boot.Holds (Some visitors))
       = Return (Some "0NaN"))
  ∧ (∃ err, VariantSerial.getNextSerialNumber (Boot.Holds None) = Throw err).
Proof.
  assert (Hlast : ∀ visitors (lastVisitor : record) n,
            last visitors = Some lastVisitor →
            lastVisitor !! "serialNumber" = Some (VStr (serialOf n)) →
            (Z.of_nat n < 2 ^ 53)%Z →
            VariantSerial.getNextSerialNumber (Boot.Holds (Some visitors))
            = Return (Some (serialOf (n + 1)))).
  { intros visitors lastVisitor n Hl Hs Hn.
    unfold VariantSerial.getNextSerialNumber. rewrite Hl, Hs.
    cbn [interpolate]. by rewrite next_after_serialOf. }
  split; [done|]. split; [done|]. split; [exact Hlast|].
  split; [|split].
  - intros visitors Hd Hne Hn.
    destruct (last visitors) as [lastVisitor|] eqn:Hl.
    + apply (Hlast _ lastVisitor); [done | | done].
      rewrite last_lookup in Hl.
      rewrite (dense_lookup _ _ _ Hd Hl). do 3 f_equal.
      destruct visitors; [done | simpl; lia].
    + by apply last_None in Hl.
  - intros visitors lastVisitor Hl Hs.
    unfold VariantSerial.getNextSerialNumber. by rewrite Hl, Hs.
  - by eexists.
Qed.

Lemma variant_next_serial_number_witness :
  VariantSerial.getNextSerialNumber
    (Boot.Holds (visitors_file Sample.threeVisitors))
  = Return (Some "0004")
  ∧ VariantSerial.getNextSerialNumber
      (Boot.Holds (visitors_file
                     (snd (deleteVisitor Sample.quietEnv "0001" Sample.threeVisitors))))
    = Return (Some "0004").
Proof.
  destruct variant_next_serial_number as (_ & _ & Hlast & Hdense & _).
  split.
  - apply (Hdense (stored Visitor Sample.threeVisitors)).
    + vm_compute; reflexivity.
    + intros H. apply (f_equal length) in H. vm_compute in H. discriminate H.
    + vm_compute; reflexivity.
  - apply (Hlast _ (createdRecord Sample.quietEnv Visitor 2 (Sample.visitorForm "Carol")) 3).
    + vm_compute; reflexivity.
    + vm_compute; reflexivity.
    + vm_compute; reflexivity.
Defined.

(** ** The create route of the variant *)

Lemma unlinkUploads_spec files : ∀ st,
  VariantCreate.visitorsJson (VariantCreate.unlinkUploads files st)
  = VariantCreate.visitorsJson st
  ∧ (∀ f, f ∈ files →
          VariantCreate.uploads (VariantCreate.unlinkUploads files st)
            !! VariantCreate.uploadPath f = None)
  ∧ (∀ path, (∀ f, f ∈ files → path ≠ VariantCreate.uploadPath f) →
             VariantCreate.uploads (VariantCreate.unlinkUploads files st) !! path
             = VariantCreate.uploads st !! path).
Proof.
  induction files as [|file files IH]; intros st.
  - split; [done|]. split; [by intros f Hf%elem_of_nil | done].
  - cbn [VariantCreate.unlinkUploads].
    assert (Hstep : ∃ st1,
              (match VariantCreate.uploads st !! VariantCreate.uploadPath file with
               | Some _ =>
                   VariantCreate.unlinkUploads files
                     (VariantCreate.State (VariantCreate.visitorsJson st)
                        (delete (VariantCreate.uploadPath file) (VariantCreate.uploads st))
                        (VariantCreate.errors st))
               | None =>
                   VariantCreate.unlinkUploads files
                     (VariantCreate.logError "Error deleting photos:"
                        (SystemError ("ENOENT: no such file or directory, unlink '"
                                      +:+ VariantCreate.uploadPath file +:+ "'")) st)
               end) = VariantCreate.unlinkUploads files st1
              ∧ VariantCreate.visitorsJson st1 = VariantCreate.visitorsJson st
              ∧ VariantCreate.uploads st1
                = delete (VariantCreate.uploadPath file) (VariantCreate.uploads st)).
    { destruct (VariantCreate.uploads st !! VariantCreate.uploadPath file) eqn:E.
      - eexists. split; [reflexivity|]. done.
      - eexists. split; [reflexivity|]. split; [done|]. simpl.
        by rewrite delete_id. }
    destruct Hstep as (st1 & -> & Hv & Hu).
    destruct (IH st1) as (IH1 & IH2 & IH3).
    split; [by rewrite IH1|]. split.
    + intros f [->|Hf]%elem_of_cons; [|by apply IH2].
      destruct (decide (file ∈ files)) as [Hin|Hnot]; [by apply IH2|].
      rewrite IH3, Hu; [apply lookup_delete_eq|].
      intros g Hg Heq. apply Hnot.
      unfold VariantCreate.uploadPath, path_join in Heq.
      do 2 apply (inj (String.app _)) in Heq. by subst.
    + intros path Hpath. rewrite IH3, Hu.
      * apply lookup_delete_ne. apply not_eq_sym, Hpath. by left.
      * intros f Hf. apply Hpath. by right.
Qed.

Lemma renameUploads_throw_or_return serial files up :
  (∃ err up', VariantCreate.renameUploads serial files up = (Throw err, up'))
  ∨ (∃ up', VariantCreate.renameUploads serial files up = (Return (), up')).
Proof.
  revert up. induction files as [|f files IH]; intros up; simpl; [right; eauto|].
  destruct (up !! VariantCreate.uploadPath f); [apply IH | left; eauto].
Qed.

(** X17. Whenever the create route of the variant answers a failure, none
    of the uploads of the request is left under its original name (each is
    unlinked).  When the failure is that of parsing or validation, the
    answer carries that message, the collection file is as before and no
    other upload has changed. *)
Theorem variant_create_failure_unlinks_uploads e now mkdir_fault p files st :
  (∀ error st',
     VariantCreate.create e now mkdir_fault p files st
     = (VariantCreate.Failure error, st') →
     ∀ f, f ∈ files → VariantCreate.uploads st' !! VariantCreate.uploadPath f = None)
  ∧ (∀ err,
       VariantCreate.parseAndValidate p = Throw err →
       ∃ st',
         VariantCreate.create e now mkdir_fault p files st
         = (VariantCreate.Failure (or_else (message err) "Failed to create visitor"),
            st')
         ∧ VariantCreate.visitorsJson st' = VariantCreate.visitorsJson st
         ∧ (∀ f, f ∈ files →
                 VariantCreate.uploads st' !! VariantCreate.uploadPath f = None)
         ∧ ∀ path, (∀ f, f ∈ files → path ≠ VariantCreate.uploadPath f) →
                   VariantCreate.uploads st' !! path
                   = VariantCreate.uploads st !! path).
Proof.
  split.
  - intros error st'. unfold VariantCreate.create.
    destruct (VariantCreate.createBody e now mkdir_fault p files st)
      as [[visitor|err] st1]; [done|].
    intros [= _ <-] f Hf.
    by apply (unlinkUploads_spec files).
  - intros err Hp. eexists. unfold VariantCreate.create, VariantCreate.createBody.
    rewrite Hp. split; [reflexivity|].
    destruct (unlinkUploads_spec files
                (VariantCreate.logError "Error creating visitor:" err st))
      as (H1 & H2 & H3).
    split; [by rewrite H1|]. split; [exact H2 | exact H3].
Qed.

Lemma variant_create_failure_unlinks_uploads_witness :
  ∃ st',
    VariantCreate.create Sample.quietEnv "2024-01-15T09:00:00.000Z" None
      (VariantCreate.ObjectRoot Sample.variantForm) ["id.jpg"] Scenario.uploaded
    = (VariantCreate.Failure "Missing required field: name", st')
    ∧ VariantCreate.uploads Scenario.uploaded !! "uploads/id.jpg" = Some "scan"
    ∧ VariantCreate.uploads st' !! "uploads/id.jpg" = None.
Proof.
  destruct (variant_create_failure_unlinks_uploads Sample.quietEnv
              "2024-01-15T09:00:00.000Z" None
              (VariantCreate.ObjectRoot Sample.variantForm) ["id.jpg"]
              Scenario.uploaded) as [_ H].
  destruct (H (Error "Missing required field: name")) as (st' & Hrun & _ & Hgone & _).
  - vm_compute; reflexivity.
  - exists st'. split; [exact Hrun|]. split; [vm_compute; reflexivity|].
    apply Hgone, list_elem_of_here.
Defined.

(** X18. A create of the variant that answers success has appended to the
    collection a record with the properties of the request, the serial
    number as the caller sent it (the server assigns none), [timeIn] set
    to the server's time and, as [photos], the original names of the
    uploads. *)
Theorem variant_create_keeps_client_serial e now mkdir_fault p files st visitor st' :
  VariantCreate.create e now mkdir_fault p files st
  = (VariantCreate.Success visitor, st') →
  ∃ visitorData visitors,
    p = VariantCreate.ObjectRoot visitorData
    ∧ Variant.validateVisitorData visitorData = Return ()
    ∧ VariantCreate.readVisitors (VariantCreate.visitorsJson st) = Return visitors
    ∧ VariantCreate.visitorsJson st' = VariantCreate.File (visitors ++ [visitor])
    ∧ VariantCreate.fields visitor !! "serialNumber" = visitorData !! "serialNumber"
    ∧ VariantCreate.fields visitor !! "timeIn" = Some (VStr now)
    ∧ (∀ f, f ≠ "timeIn" → f ≠ "photos" →
            VariantCreate.fields visitor !! f = visitorData !! f)
    ∧ VariantCreate.photoNames visitor = files.
Proof.
  unfold VariantCreate.create, VariantCreate.createBody.
  destruct (VariantCreate.parseAndValidate p) as [visitorData|err] eqn:Hp; [|done].
  destruct (VariantCreate.readVisitors _) as [visitors|err] eqn:Hread; [|done].
  destruct mkdir_fault; [done|].
  destruct (writeFile_fault e VISITORS_FILE); [done|].
  destruct (VariantCreate.renameUploads _ _ _) as [[[]|err] up]; [|done].
  intros [= <- <-]. exists visitorData, visitors.
  assert (Hroot : p = VariantCreate.ObjectRoot visitorData
                  ∧ Variant.validateVisitorData visitorData = Return ()).
  { destruct p as [msg| | |r]; simpl in Hp; try done.
    destruct (Variant.validateVisitorData r) as [[]|] eqn:Hv; [|done].
    by injection Hp as <-. }
  destruct Hroot as [-> Hv].
  split; [done|]. split; [done|]. split; [done|]. split; [done|].
  simpl. split; [by rewrite lookup_insert_ne, lookup_delete_ne|].
  split; [apply lookup_insert_eq|]. split; [|done].
  intros f H1 H2. by rewrite lookup_insert_ne, lookup_delete_ne.
Qed.

Lemma variant_create_keeps_client_serial_witness :
  ∃ visitor st',
    VariantCreate.create Sample.quietEnv "2024-01-15T09:00:00.000Z" None
      (VariantCreate.ObjectRoot Scenario.variantData) ["id.jpg"] Scenario.uploaded
    = (VariantCreate.Success visitor, st')
    ∧ VariantCreate.fields visitor !! "serialNumber" = Some (VStr "0001")
    ∧ VariantCreate.photoNames visitor = ["id.jpg"]
    ∧ VariantCreate.visitorsJson st' = VariantCreate.File [visitor].
Proof.
  pose (visitor := VariantCreate.newVisitor "2024-01-15T09:00:00.000Z"
                     Scenario.variantData ["id.jpg"]).
  pose (st' := snd (VariantCreate.create Sample.quietEnv "2024-01-15T09:00:00.000Z"
                      None (VariantCreate.ObjectRoot Scenario.variantData)
                      ["id.jpg"] Scenario.uploaded)).
  assert (Hrun : VariantCreate.create Sample.quietEnv "2024-01-15T09:00:00.000Z"
                   None (VariantCreate.ObjectRoot Scenario.variantData)
                   ["id.jpg"] Scenario.uploaded
                 = (VariantCreate.Success visitor, st'))
    by (vm_compute; reflexivity).
  destruct (variant_create_keeps_client_serial _ _ _ _ _ _ _ _ Hrun)
    as (data & visitors & Hp & _ & Hread & Hfile & Hserial & _ & _ & Hnames).
  exists visitor, st'. split; [exact Hrun|].
  injection Hp as <-. injection Hread as <-.
  split; [rewrite Hserial; vm_compute; reflexivity|].
  split; [exact Hnames | exact Hfile].
Defined.

(** X19. The variant writes the collection before it renames the uploads:
    when a rename then fails (for instance because two uploads have the
    same name, so that the second one is gone by its turn), the route
    answers a failure although the new record is in the collection file. *)
Theorem variant_create_persists_before_rename e now p files st visitorData visitors err up :
  VariantCreate.parseAndValidate p = Return visitorData →
  VariantCreate.readVisitors (VariantCreate.visitorsJson st) = Return visitors →
  writeFile_fault e VISITORS_FILE = None →
  VariantCreate.renameUploads (visitorData !! "serialNumber") files
    (VariantCreate.uploads st) = (Throw err, up) →
  ∃ st',
    VariantCreate.create e now None p files st
    = (VariantCreate.Failure (or_else (message err) "Failed to create visitor"), st')
    ∧ VariantCreate.visitorsJson st'
      = VariantCreate.File
          (visitors ++ [VariantCreate.newVisitor now visitorData files]).
Proof.
  intros Hp Hread Hw Hren. eexists.
  unfold VariantCreate.create, VariantCreate.createBody.
  rewrite Hp, Hread, Hw. cbn [VariantCreate.uploads]. rewrite Hren.
  split; [reflexivity|].
  match goal with
  | |- VariantCreate.visitorsJson (VariantCreate.unlinkUploads ?fs ?s) = _ =>
      destruct (unlinkUploads_spec fs s) as (-> & _)
  end.
  reflexivity.
Qed.

Lemma variant_create_persists_before_rename_witness :
  ∃ error st',
    VariantCreate.create Sample.quietEnv "2024-01-15T09:00:00.000Z" None
      (VariantCreate.ObjectRoot Scenario.variantData) ["id.jpg"; "id.jpg"]
      Scenario.uploaded
    = (VariantCreate.Failure error, st')
    ∧ VariantCreate.visitorsJson st'
      = VariantCreate.File
          [VariantCreate.newVisitor "2024-01-15T09:00:00.000Z"
             Scenario.variantData ["id.jpg"; "id.jpg"]].
Proof.
  destruct (VariantCreate.renameUploads (Scenario.variantData !! "serialNumber")
              ["id.jpg"; "id.jpg"] (VariantCreate.uploads Scenario.uploaded))
    as [[[]|err] up] eqn:Hren; [vm_compute in Hren; discriminate Hren|].
  destruct (variant_create_persists_before_rename Sample.quietEnv
              "2024-01-15T09:00:00.000Z"
              (VariantCreate.ObjectRoot Scenario.variantData) ["id.jpg"; "id.jpg"]
              Scenario.uploaded Scenario.variantData [] err up)
    as (st' & Hrun & Hfile).
  - vm_compute; reflexivity.
  - reflexivity.
  - reflexivity.
  - exact Hren.
  - eexists _, st'. split; [exact Hrun | exact Hfile].
Defined.

(** ** More on delete with adjustment, photo writes and the pattern *)

(** X20. Delete with adjustment never changes the photo directory, found
    or not, fault or not: every existence test it makes before an unlink
    or a rename throws, so no photo file is ever deleted or renamed by it. *)
Theorem delete_adjust_never_touches_photos e k sn w :
  photos (snd (deleteAdjust e k sn w)) = photos w
  ∧ (∀ path, photos (snd (deleteAdjust e k sn w)) !! path = photos w !! path).
Proof.
  pose proof (deleteAdjust_photos e k sn w) as H. split; [done|].
  intros path. by rewrite H.
Qed.

(** X21. Delete with adjustment of a serial number that some record
    carries, without a storage fault, leaves a dense collection whatever
    the serial numbers were before (gaps and duplicates are renumbered
    away); it removes the first record carrying the serial number and
    keeps the other properties of the rest in order. *)
Theorem delete_adjust_repairs_serials e k sn w :
  Some (VStr sn) ∈ field "serialNumber" (stored k w) →
  writeFile_fault e (collection_path k) = None →
  ∃ i (r : record),
    stored k w !! i = Some r ∧ has_serial sn r
    ∧ (∀ j (r0 : record), stored k w !! j = Some r0 → j < i → ¬ has_serial sn r0)
    ∧ dense (stored k (snd (deleteAdjust e k sn w)))
    ∧ length (stored k (snd (deleteAdjust e k sn w))) = length (stored k w) - 1
    ∧ ∀ f, f ∉ ["serialNumber"; "frontPhoto"; "backPhoto"] →
           field f (stored k (snd (deleteAdjust e k sn w)))
           = field f (delete i (stored k w)).
Proof.
  intros Hin Hok.
  destruct (list_find (has_serial sn) (stored k w)) as [[i r]|] eqn:Hfind.
  - pose proof Hfind as (Hi & Hr & Hfirst)%list_find_Some.
    exists i, r. rewrite (deleteAdjust_found e k sn w i r Hfind Hok).
    cbn [snd]. rewrite stored_set_collection_file.
    split; [done|]. split; [done|]. split; [exact Hfirst|].
    split; [apply dense_renumbered|].
    split; [rewrite length_renumbered; apply length_delete; eauto|].
    intros f Hf. by apply field_other_renumbered.
  - exfalso. unfold field in Hin.
    apply list_elem_of_fmap in Hin as (r & Hr & Hin).
    eapply list_find_None in Hfind. rewrite Forall_forall in Hfind.
    by apply (Hfind r).
Qed.

Lemma delete_adjust_repairs_serials_witness :
  field "serialNumber"
    (stored Visitor (snd (deleteVisitor Sample.quietEnv "0002" Sample.threeVisitors)))
  = [Some (VStr "0001"); Some (VStr "0003")]
  ∧ dense (stored Visitor
             (snd (deleteAdjust Sample.quietEnv Visitor "0001"
                     (snd (deleteVisitor Sample.quietEnv "0002"
                             Sample.threeVisitors))))).
Proof.
  split; [vm_compute; reflexivity|].
  destruct (delete_adjust_repairs_serials Sample.quietEnv Visitor "0001"
              (snd (deleteVisitor Sample.quietEnv "0002" Sample.threeVisitors)))
    as (i & r & _ & _ & _ & Hd & _).
  - apply (bool_decide_unpack _). vm_compute. exact I.
  - reflexivity.
  - exact Hd.
Defined.

(** X22. In a create that passed validation with string payloads, where a
    rejected photo write is one rejected before the file is opened (the
    write fault of this model: no file is created or truncated): when
    the write of the front photo is rejected, nothing at all is written;
    when the write of the back photo is rejected, the front photo stays
    on disk and nothing else is written.  Either way the answer is 400
    with the message of the fault. *)
Theorem create_photo_fault_leftovers e k (body : record) w front back msg :
  validate k body = Return true →
  body !! "frontPhoto" = Some (VStr front) →
  body !! "backPhoto" = Some (VStr back) →
  (rejectsAtOpen e (photoPath k (serialOf (length (stored k w) + 1)) "front") msg →
   ∃ w', create e k body w = (BadRequest (or_else msg (createFailure k)), w')
         ∧ visitors_file w' = visitors_file w ∧ keys_file w' = keys_file w
         ∧ photos w' = photos w)
  ∧ (writeFile_fault e (photoPath k (serialOf (length (stored k w) + 1)) "front")
     = None →
     rejectsAtOpen e (photoPath k (serialOf (length (stored k w) + 1)) "back") msg →
     ∃ w', create e k body w = (BadRequest (or_else msg (createFailure k)), w')
           ∧ visitors_file w' = visitors_file w ∧ keys_file w' = keys_file w
           ∧ photos w'
             = <[photoPath k (serialOf (length (stored k w) + 1)) "front"
                 := strip_data_uri front]> (photos w)).
Proof.
  unfold rejectsAtOpen. intros Hv Hfront Hback. split.
  - intros Hw1. eexists.
    unfold create, handler. rewrite createBody_run, Hv.
    unfold createAfterLoad. rewrite Hfront, Hback, Hw1. done.
  - intros Hw1 Hw2. by apply (create_back_fault e k body w front back msg).
Qed.

Lemma create_photo_fault_leftovers_witness :
  rejectsAtOpen Scenario.backPhotoDeniedEnv "data/photos/0001_back.jpg"
    "EACCES: permission denied, open 'data/photos/0001_back.jpg'"
  ∧ ∃ w', create Scenario.backPhotoDeniedEnv Visitor (Sample.visitorForm "Alice")
          Sample.emptyWorld
        = (BadRequest "EACCES: permission denied, open 'data/photos/0001_back.jpg'",
           w')
        ∧ photos w' = {["data/photos/0001_front.jpg" := "front-of-Alice"]}.
Proof.
  split; [reflexivity|].
  destruct (create_photo_fault_leftovers Scenario.backPhotoDeniedEnv Visitor
              (Sample.visitorForm "Alice") Sample.emptyWorld
              "data:image/jpeg;base64,front-of-Alice"
              "data:image/jpeg;base64,back-of-Alice"
              "EACCES: permission denied, open 'data/photos/0001_back.jpg'")
    as [_ H]; [vm_compute; reflexivity..|].
  destruct H as (w' & Hrun & _ & _ & Hph); [reflexivity..|].
  exists w'. split; [exact Hrun|]. rewrite Hph. reflexivity.
Defined.

(** X23. The identity-number pattern accepts exactly the strings of the
    shape 784-DDDD-DDDDDDD-D, each D a decimal digit; every accepted
    string has 18 characters, and nothing before or after is tolerated. *)
Theorem id_pattern_accepts_exactly s :
  (test idPattern s = true
   ↔ ∃ a b c, s = "784-" +:+ a +:+ "-" +:+ b +:+ "-" +:+ c
              ∧ digits 4 a ∧ digits 7 b ∧ digits 1 c)
  ∧ (test idPattern s = true → String.length s = 18)
  ∧ (∀ c, test idPattern (String c s) = true → test idPattern s = false)
  ∧ (∀ c, test idPattern s = true → test idPattern (s +:+ String c "") = false).
Proof.
  assert (Hlen : ∀ t, test idPattern t = true → String.length t = 18).
  { intros t (a & b & c & -> & [Ha _] & [Hb _] & [Hc _])%idPattern_accepts.
    rewrite !string_length_app, Ha, Hb, Hc. reflexivity. }
  split; [apply idPattern_accepts|]. split; [apply Hlen|]. split.
  - intros c H%Hlen. destruct (test idPattern s) eqn:E; [|done].
    apply Hlen in E. simpl in H. lia.
  - intros c H%Hlen. destruct (test idPattern (s +:+ String c "")) eqn:E; [|done].
    apply Hlen in E. rewrite string_length_app in E. simpl in E. lia.
Qed.

(** ** Repeating a timeout or return *)

Lemma assign_assign key v1 v2 (r : record) :
  assign key v2 (assign key v1 r) = assign key v2 r.
Proof.
  apply map_eq. intros f. destruct (decide (f = key)) as [->|Hne].
  - by rewrite !assign_lookup.
  - by rewrite !assign_lookup_ne.
Qed.

Lemma list_find_insert_same sn rs i (r r' : record) :
  list_find (has_serial sn) rs = Some (i, r) →
  has_serial sn r' →
  list_find (has_serial sn) (<[i := r']> rs) = Some (i, r').
Proof.
  intros (Hi & Hr & Hfirst)%list_find_Some Hr'. apply list_find_Some.
  split; [apply list_lookup_insert_eq; by eapply lookup_lt_Some|].
  split; [done|].
  intros j y Hj Hlt. rewrite list_lookup_insert_ne in Hj by lia.
  by apply (Hfirst j).
Qed.

(** X24. Without a storage fault, a second timeout or return on the same
    serial number overrides the first: the collection and the answer are
    those of the second request alone.  In particular a request without
    the time property clears a time recorded before. *)
Theorem set_time_last_write_wins e k sn (body1 body2 : record) w :
  Some (VStr sn) ∈ field "serialNumber" (stored k w) →
  writeFile_fault e (collection_path k) = None →
  fst (setTime e k sn body2 (snd (setTime e k sn body1 w)))
  = fst (setTime e k sn body2 w)
  ∧ stored k (snd (setTime e k sn body2 (snd (setTime e k sn body1 w))))
    = stored k (snd (setTime e k sn body2 w))
  ∧ (body2 !! timeField k = None →
     ∃ r : record,
       fst (setTime e k sn body2 (snd (setTime e k sn body1 w))) = Updated r
       ∧ r !! timeField k = None).
Proof.
  intros Hin Hok.
  destruct (list_find (has_serial sn) (stored k w)) as [[i r]|] eqn:Hfind.
  - pose proof Hfind as (Hi & Hr & _)%list_find_Some.
    rewrite (setTime_found e k sn body1 w i r Hfind Hok). cbn [snd].
    set (r1 := assign (timeField k) (body1 !! timeField k) r).
    set (w1 := set_collection_file k _ _).
    assert (Hst1 : stored k w1 = <[i := r1]> (stored k w))
      by apply stored_set_collection_file.
    assert (Hfind1 : list_find (has_serial sn) (stored k w1) = Some (i, r1)).
    { rewrite Hst1. apply (list_find_insert_same _ _ _ r); [done|].
      unfold has_serial, r1.
      by rewrite assign_lookup_ne by apply timeField_not_serial. }
    rewrite (setTime_found e k sn body2 w1 i r1 Hfind1 Hok).
    rewrite (setTime_found e k sn body2 w i r Hfind Hok). cbn [fst snd].
    rewrite !stored_set_collection_file, Hst1, list_insert_insert_eq.
    unfold r1. rewrite assign_assign.
    split; [done|]. split; [done|].
    intros Hnone. eexists. split; [reflexivity|].
    by rewrite assign_lookup.
  - exfalso. unfold field in Hin.
    apply list_elem_of_fmap in Hin as (r & Hr & Hin).
    eapply list_find_None in Hfind. rewrite Forall_forall in Hfind.
    by apply (Hfind r).
Qed.

Lemma set_time_last_write_wins_witness :
  ∃ r : record,
    fst (keyReturn Sample.quietEnv "0001" ∅ Sample.twoKeys) = Updated r
    ∧ r !! "timeReturned" = None
    ∧ fst (stats (snd (keyReturn Sample.quietEnv "0001" ∅ Sample.twoKeys)))
      = StatsOf 0 2.
Proof.
  pose (w0 := snd (create Sample.quietEnv Key (Sample.keyForm "Bob")
                     (snd (create Sample.quietEnv Key (Sample.keyForm "Alice")
                             Sample.emptyWorld)))).
  destruct (set_time_last_write_wins Sample.quietEnv Key "0001"
              {["timeReturned" := VStr "17:30"]} ∅ w0)
    as (_ & _ & Hclear).
  - apply (bool_decide_unpack _). vm_compute. exact I.
  - reflexivity.
  - destruct Hclear as (r & Hr & Hnone); [reflexivity|].
    exists r. split; [exact Hr|]. split; [exact Hnone|].
    vm_compute; reflexivity.
Defined.
